(** * Payment card field validators (payments/ui/payments_edit_card.cpp)

    A shallow embedding of the validation and reformatting core of the
    card editing form: the numbers-only projection, the card-number and
    expiry-date postprocessors, the backspace / delete detection and the
    validators built from them.

    Modelling conventions.
    - A [QString] is the list of its UTF-16 code units, a [QChar] is one
      code unit (an [N]).  Null and empty strings are both the empty list:
      Qt compares them equal and every operation used here treats them
      alike.
    - A C++ [int] is a [Z].  Signed overflow is undefined in C++, so there
      is no wrap-around to write out; every offset computed below stays
      within one or two units of a string length.
    - The Qt operations ([mid], [insert], [operator[]]) follow the Qt 5
      implementation the application is built against, including what they
      do for out-of-range arguments. *)

From Stdlib Require Import ZArith NArith List Bool Lia String Ascii Permutation.
Import ListNotations.

Local Open Scope Z_scope.

(** ** The Qt string operations the file uses *)

Module Qt.

Definition QChar := N.
Definition QString := list QChar.

(** A C++ character literal, as the code unit it converts to. *)
Definition chr (a : ascii) : QChar := N_of_ascii a.

(** A C++ string literal. *)
Definition qs (s : string) : QString := List.map chr (list_ascii_of_string s).

Definition size (s : QString) : Z := Z.of_nat (List.length s).

Definition isEmpty (s : QString) : bool := size s =? 0.

(** [QString::mid(position, n)], through [QContainerImplHelper::mid]:
    a start beyond the end gives a null string; a negative start is
    moved to 0 and the length shortened accordingly; a negative or too
    large length means "up to the end". *)
Definition mid (s : QString) (position n : Z) : QString :=
  if size s <? position then []
  else if position <? 0 then
    if (n <? 0) || (size s <=? n + position) then s
    else if n + position <=? 0 then []
    else firstn (Z.to_nat (n + position)) s
  else
    let n' := if (n <? 0) || (size s - position <? n)
              then size s - position else n in
    firstn (Z.to_nat n') (skipn (Z.to_nat position) s).

(** [QString::mid(position)]: the default length is -1. *)
Definition midFrom (s : QString) (position : Z) : QString := mid s position (-1).

(** [QString::insert(i, ch)]: a negative index counts from the end (and
    does nothing when still negative); an index beyond the end pads the
    string with spaces up to it. *)
Definition insert (s : QString) (i : Z) (ch : QChar) : QString :=
  let i := if i <? 0 then i + size s else i in
  if i <? 0 then s
  else if size s <? i
    then s ++ repeat (chr " ") (Z.to_nat (i - size s)) ++ [ch]
    else firstn (Z.to_nat i) s ++ ch :: skipn (Z.to_nat i) s.

(** [s[i]] on a non-const [QString], read as an rvalue.  Qt 5 goes
    through [QCharRef], whose conversion to [QChar] yields the character
    when [i < size] and [QChar(0)] otherwise; the underlying buffer holds
    the terminating NUL at [i = size]. *)
Definition at_ (s : QString) (i : Z) : QChar :=
  if (0 <=? i) && (i <? size s) then nth (Z.to_nat i) s 0%N else 0%N.

Definition QChar_eqb (a b : QChar) : bool := N.eqb a b.
Definition QChar_gtb (a b : QChar) : bool := N.ltb b a.

Fixpoint QString_eqb (a b : QString) : bool :=
  match a, b with
  | [], [] => true
  | x :: a', y :: b' => N.eqb x y && QString_eqb a' b'
  | _, _ => false
  end.

End Qt.

Import Qt.

(** ** stripe/stripe_card_validator.h: the interface the file consumes *)

Module Stripe.

Inductive ValidationState := Invalid | Incomplete | Valid.

Definition ValidationState_eqb (a b : ValidationState) : bool :=
  match a, b with
  | Invalid, Invalid | Incomplete, Incomplete | Valid, Valid => true
  | _, _ => false
  end.

(** What [ValidateCard], [ValidateExpireDate] and [ValidateCvc] return;
    the validators below read only these two members. *)
Record ValidationResult := {
  state : ValidationState;
  finished : bool;
}.

End Stripe.

(** ** Data *)

Record SimpleFieldState := {
  value : QString;
  position : Z;
}.

(** payments/ui/payments_field.h *)
Record FieldValidateRequest := {
  wasValue : QString;
  wasPosition : Z;
  wasAnchor : Z;
  nowValue : QString;
  nowPosition : Z;
}.

(** payments/ui/payments_field.h; the members [value] and [position] carry
    a prefix here because [SimpleFieldState] already owns those names. *)
Record FieldValidateResult := {
  result_value : QString;
  result_position : Z;
  invalid : bool;
  result_finished : bool;
}.

(** ** Numbers-only projection *)

Definition isNumber (c : QChar) : bool := (48 <=? c)%N && (c <=? 57)%N.

(** [value.replace(QRegularExpression("[^0-9]"), QString())] *)
Definition RemoveNonNumbers (value : QString) : QString :=
  filter isNumber value.

Definition NumbersOnlyState (state : SimpleFieldState) : SimpleFieldState :=
  {| value := RemoveNonNumbers (value state);
     position := size (RemoveNonNumbers (mid (value state) 0 (position state))) |}.

(** ** Card number postprocessing *)

(** The body of the [for (const auto length : groups)] loop; [position]
    is the loop-carried local. *)
Fixpoint PostprocessCard_loop (groups : list Z) (position0 : Z)
    (result : SimpleFieldState) : SimpleFieldState :=
  match groups with
  | [] => result
  | length :: rest =>
      let position1 := position0 + length in
      if size (value result) <=? position1 then result
      else
        let value' := insert (value result) position1 (chr " ") in
        let position' := if position1 <=? position result
                         then position result + 1 else position result in
        PostprocessCard_loop rest (position1 + 1)
          {| value := value'; position := position' |}
  end.

(** [Stripe::CardNumberFormat] lives outside this file and is taken as a
    parameter: it maps the number to the list of its group lengths. *)
Definition PostprocessCardValidateResult
    (CardNumberFormat : QString -> list Z)
    (result : SimpleFieldState) : SimpleFieldState :=
  let groups := CardNumberFormat (value result) in
  PostprocessCard_loop groups 0 result.

(** ** Expiry date postprocessing *)

Definition PostprocessExpireDateValidateResult
    (result : SimpleFieldState) : SimpleFieldState :=
  if isEmpty (value result) then result
  else if QChar_eqb (at_ (value result) 0) (chr "1")
          && QChar_gtb (at_ (value result) 1) (chr "2")
  then {| value := mid (value result) 0 2; position := position result |}
  else
    let result1 :=
      if QChar_gtb (at_ (value result) 0) (chr "1")
      then {| value := chr "0" :: value result;
              position := position result + 1 |}
      else result in
    if 1 <? size (value result1) then
      let value2 := if 4 <? size (value result1)
                    then mid (value result1) 0 4 else value result1 in
      {| value := insert value2 2 (chr "/");
         position := if 2 <=? position result1
                     then position result1 + 1 else position result1 |}
    else result1.

(** *** The same function, recording each [operator[]] read

    Every [result.value[i]] is logged with the index and the size of the
    string at the time of the read; [&&] evaluates its right operand only
    when the left one is true. *)

Record CharRead := {
  read_index : Z;
  read_size : Z;
}.

Definition readAt (s : QString) (i : Z) : QChar * list CharRead :=
  (at_ s i, [{| read_index := i; read_size := size s |}]).

Definition PostprocessExpireDate_reads
    (result : SimpleFieldState) : SimpleFieldState * list CharRead :=
  if isEmpty (value result) then (result, [])
  else
    let '(c0, log0) := readAt (value result) 0 in
    let '(cond1, log1) :=
      if QChar_eqb c0 (chr "1")
      then let '(c1, l) := readAt (value result) 1 in
           (QChar_gtb c1 (chr "2"), log0 ++ l)
      else (false, log0) in
    if cond1
    then ({| value := mid (value result) 0 2; position := position result |},
          log1)
    else
      let '(c0', log2) := readAt (value result) 0 in
      let result1 :=
        if QChar_gtb c0' (chr "1")
        then {| value := chr "0" :: value result;
                position := position result + 1 |}
        else result in
      let out :=
        if 1 <? size (value result1) then
          let value2 := if 4 <? size (value result1)
                        then mid (value result1) 0 4 else value result1 in
          {| value := insert value2 2 (chr "/");
             position := if 2 <=? position result1
                         then position result1 + 1 else position result1 |}
        else result1 in
      (out, log1 ++ log2).

Definition inBounds (r : CharRead) : bool :=
  (0 <=? read_index r) && (read_index r <? read_size r).

(** ** Backspace and delete detection *)

Definition IsBackspace (request : FieldValidateRequest) : bool :=
  (wasAnchor request =? wasPosition request)
  && (wasPosition request =? nowPosition request + 1)
  && QString_eqb (mid (wasValue request) 0 (wasPosition request - 1))
                 (mid (nowValue request) 0 (nowPosition request))
  && QString_eqb (midFrom (wasValue request) (wasPosition request))
                 (midFrom (nowValue request) (nowPosition request)).

Definition IsDelete (request : FieldValidateRequest) : bool :=
  (wasAnchor request =? wasPosition request)
  && (wasPosition request =? nowPosition request)
  && QString_eqb (mid (wasValue request) 0 (wasPosition request))
                 (mid (nowValue request) 0 (nowPosition request))
  && QString_eqb (midFrom (wasValue request) (wasPosition request + 1))
                 (midFrom (nowValue request) (nowPosition request)).

(** ** The validators *)

(** The immediately-invoked lambda [realNowState] of
    [ComplexNumberValidator]. *)
Definition realNowState (request : FieldValidateRequest) : SimpleFieldState :=
  let backspaced := IsBackspace request in
  let deleted := IsDelete request in
  if negb backspaced && negb deleted then
    NumbersOnlyState {| value := nowValue request;
                        position := nowPosition request |}
  else
    let realWasState :=
      NumbersOnlyState {| value := wasValue request;
                          position := wasPosition request |} in
    let changedValue :=
      if deleted
      then mid (value realWasState) 0 (position realWasState)
           ++ midFrom (value realWasState) (position realWasState + 1)
      else if 1 <? position realWasState
      then mid (value realWasState) 0 (position realWasState - 1)
           ++ midFrom (value realWasState) (position realWasState)
      else midFrom (value realWasState) (position realWasState) in
    {| value := changedValue;
       position := if deleted
                   then position realWasState
                   else Z.max (position realWasState - 1) 0 |}.

Definition ComplexNumberValidator
    (valueValidator : QString -> Stripe.ValidationResult)
    (postprocess : SimpleFieldState -> SimpleFieldState)
    (request : FieldValidateRequest) : FieldValidateResult :=
  let realNow := realNowState request in
  let result := valueValidator (value realNow) in
  let postprocessed := postprocess realNow in
  {| result_value := value postprocessed;
     result_position := position postprocessed;
     invalid := Stripe.ValidationState_eqb (Stripe.state result) Stripe.Invalid;
     result_finished := Stripe.finished result |}.

Section Validators.

(** The Stripe entry points, defined outside this file.  [CvcValidator]
    captures a callback [number] returning the current card number; it is
    modelled by the string the callback returns when the validator runs.
    [CardHolderNameValidator] and the required-field validators do no
    stripping or reformatting and are not modelled. *)
Variable ValidateCard : QString -> Stripe.ValidationResult.
Variable ValidateExpireDate : QString -> Stripe.ValidationResult.
Variable ValidateCvc : QString -> QString -> Stripe.ValidationResult.
Variable CardNumberFormat : QString -> list Z.

Definition CardNumberValidator : FieldValidateRequest -> FieldValidateResult :=
  ComplexNumberValidator ValidateCard
    (PostprocessCardValidateResult CardNumberFormat).

Definition ExpireDateValidator : FieldValidateRequest -> FieldValidateResult :=
  ComplexNumberValidator ValidateExpireDate
    PostprocessExpireDateValidateResult.

Definition CvcValidator (number : QString)
    (request : FieldValidateRequest) : FieldValidateResult :=
  let realNow := NumbersOnlyState {| value := nowValue request;
                                     position := nowPosition request |} in
  let result := ValidateCvc number (value realNow) in
  {| result_value := value realNow;
     result_position := position realNow;
     invalid := Stripe.ValidationState_eqb (Stripe.state result) Stripe.Invalid;
     result_finished := Stripe.finished result |}.

End Validators.

(** ** Auxiliary notions used in the statements *)

(** The spec's wording of the two text comparisons: "the text before
    offset [k]" and "the text after offset [k]" of a string. *)
Definition textBefore (k : Z) (s : QString) : QString := firstn (Z.to_nat k) s.
Definition textAfter (k : Z) (s : QString) : QString := skipn (Z.to_nat k) s.

(** The spec's definition of a backward delete. *)
Definition BackwardDelete_spec (request : FieldValidateRequest) : Prop :=
  wasAnchor request = wasPosition request
  /\ wasPosition request = nowPosition request + 1
  /\ textBefore (wasPosition request - 1) (wasValue request)
     = textBefore (wasPosition request - 1) (nowValue request)
  /\ textAfter (wasPosition request) (wasValue request)
     = textAfter (nowPosition request) (nowValue request).

(** A stripped value: every character is a digit. *)
Definition allNumbers (v : QString) : bool := forallb isNumber v.

(** Group lengths as [CardNumberFormat] hands them out: no negative one. *)
Definition validGroups (groups : list Z) : Prop := Forall (fun g => 0 <= g) groups.

(** The two tests of the [if] chain of the expiry date postprocessor,
    named. *)
Definition invalidMonth (v : QString) : bool :=
  QChar_eqb (at_ v 0) (chr "1") && QChar_gtb (at_ v 1) (chr "2").

Definition singleDigitMonth (v : QString) : bool :=
  QChar_gtb (at_ v 0) (chr "1").

(** The digits the expiry postprocessor keeps: the first two of an input
    with an invalid month, otherwise the first four after the zero it
    prepended to a single-digit month. *)
Definition expireDigits (v : QString) : QString :=
  if invalidMonth v then firstn 2 v
  else firstn 4 (if singleDigitMonth v then chr "0" :: v else v).

(** Two strings hold the same multiset of digit characters. *)
Definition sameDigits (a b : QString) : Prop :=
  Permutation (RemoveNonNumbers a) (RemoveNonNumbers b).

(** The value without its character at index [k] (unchanged when there is
    none). *)
Definition removeAt (k : Z) (v : QString) : QString :=
  firstn (Z.to_nat k) v ++ skipn (S (Z.to_nat k)) v.

(** The spec's wording of the reconstruction after a backward delete:
    from the numbers-only projection of the before snapshot, remove the
    digit immediately before the stripped cursor if that cursor is greater
    than 1, else the digit at the cursor (clamped to the value); the cursor
    goes down by one, floored at 0, unless nothing was removed. *)
Definition reconstructBackwardDelete_spec
    (before : SimpleFieldState) : SimpleFieldState :=
  let real := NumbersOnlyState before in
  let clamped := Z.max 0 (Z.min (position real) (size (value real))) in
  let changed := if 1 <? position real
                 then removeAt (position real - 1) (value real)
                 else removeAt clamped (value real) in
  {| value := changed;
     position := if size changed =? size (value real)
                 then position real
                 else Z.max (position real - 1) 0 |}.

(** A verdict to run the validators with, where a concrete one is needed. *)
Definition alwaysIncomplete : Stripe.ValidationResult :=
  {| Stripe.state := Stripe.Incomplete; Stripe.finished := false |}.

(** ** Expiry month and year extraction *)

(** [QString::split(sep)] with the default [Qt::KeepEmptyParts]: the
    segments between the separators, empty ones included; a string
    without separator is its own single segment. *)
Fixpoint split (sep : QChar) (s : QString) : list QString :=
  match s with
  | [] => [[]]
  | c :: s' =>
      if QChar_eqb c sep then [] :: split sep s'
      else match split sep s' with
           | segment :: rest => (c :: segment) :: rest
           | [] => [[c]]
           end
  end.

(** [QStringList::value(i)]: the element, or a default-constructed
    (empty) string when [i] is out of range. *)
Definition value_at (l : list QString) (i : Z) : QString :=
  if (0 <=? i) && (i <? Z.of_nat (List.length l))
  then nth (Z.to_nat i) l [] else [].

(** The number a digit string denotes in base 10. *)
Definition decimalValue (v : QString) : Z :=
  fold_left (fun acc c => 10 * acc + (Z.of_N c - 48)) v 0.

(** What the theorems below use of [QString::toInt()]: it returns 0 when
    the conversion fails, as it does on the empty string, and reads a
    plain digit string in base 10 (up to nine digits always fit an
    [int]).  Signs, surrounding whitespace and overflow are left to the
    function. *)
Record ToIntLaws (toInt : QString -> Z) : Prop := {
  toInt_empty : toInt [] = 0;
  toInt_digits : forall v,
    v <> [] -> allNumbers v = true -> size v <= 9 ->
    toInt v = decimalValue v;
}.

(** A function with these laws, to run the extraction on examples. *)
Definition toIntPlain (v : QString) : Z :=
  if allNumbers v then decimalValue v else 0.

(** The conversion of an [int] to the [uint32] the functions return. *)
Definition to_uint32 (x : Z) : Z := x mod 2 ^ 32.

Definition ExtractYear (toInt : QString -> Z) (value : QString) : Z :=
  to_uint32 (toInt (value_at (split (chr "/") value) 1) + 2000).

Definition ExtractMonth (toInt : QString -> Z) (value : QString) : Z :=
  to_uint32 (toInt (value_at (split (chr "/") value) 0)).

(** The edit the Delete key makes, in terms of plain prefixes and
    suffixes: no selection, the cursor stays, the text before it is
    unchanged and the text after the next character follows it. *)
Definition ForwardDelete_plain (request : FieldValidateRequest) : Prop :=
  wasAnchor request = wasPosition request
  /\ wasPosition request = nowPosition request
  /\ textBefore (wasPosition request) (wasValue request)
     = textBefore (wasPosition request) (nowValue request)
  /\ textAfter (wasPosition request + 1) (wasValue request)
     = textAfter (nowPosition request) (nowValue request).

(** A request that sets the field to a given state and is neither a
    backspace nor a delete: what the field raises when a validator's
    result is applied to it. *)
Definition appliesState (state : SimpleFieldState)
    (request : FieldValidateRequest) : Prop :=
  nowValue request = value state
  /\ nowPosition request = position state
  /\ IsBackspace request = false
  /\ IsDelete request = false.

(** The offsets, counted in digits, at which the groups of a card number
    end: the running sums of the group lengths, starting from [c]. *)
Fixpoint boundaries (c : Z) (groups : list Z) : list Z :=
  match groups with
  | [] => []
  | g :: rest => (c + g) :: boundaries (c + g) rest
  end.

(** ** Basic facts about the Qt operations *)

Lemma size_nonneg (s : QString) : 0 <= size s.
Proof. unfold size; lia. Qed.

Lemma size_cons (c : QChar) (s : QString) : size (c :: s) = 1 + size s.
Proof. unfold size; cbn [List.length]; lia. Qed.

Lemma size_app (s t : QString) : size (s ++ t) = size s + size t.
Proof. unfold size; rewrite length_app; lia. Qed.

Lemma QString_eqb_eq (a b : QString) : QString_eqb a b = true <-> a = b.
Proof.
  revert b; induction a as [|x a IH]; intros [|y b]; cbn; try (split; congruence).
  rewrite andb_true_iff, N.eqb_eq, IH. split.
  - intros [-> ->]; reflexivity.
  - intros H; inversion H; auto.
Qed.

(** With a start of 0 and a non-negative length, [mid] is a prefix. *)
Lemma mid_prefix (s : QString) (n : Z) :
  0 <= n -> mid s 0 n = firstn (Z.to_nat n) s.
Proof.
  intros Hn. unfold mid. pose proof (size_nonneg s) as Hs.
  destruct (Z.ltb_spec (size s) 0); [lia|].
  cbn [Z.ltb Z.compare]. rewrite Z.sub_0_r.
  destruct (Z.ltb_spec n 0); [lia|]. cbn [orb skipn Z.to_nat].
  destruct (Z.ltb_spec (size s) n); [|reflexivity].
  unfold size in *. rewrite Nat2Z.id, firstn_all.
  symmetry; apply firstn_all2; lia.
Qed.

(** With a start of 0 and a negative length, [mid] is the whole string. *)
Lemma mid_prefix_neg (s : QString) (n : Z) : n < 0 -> mid s 0 n = s.
Proof.
  intros Hn. unfold mid. pose proof (size_nonneg s) as Hs.
  destruct (Z.ltb_spec (size s) 0); [lia|].
  cbn [Z.ltb Z.compare]. rewrite Z.sub_0_r.
  destruct (Z.ltb_spec n 0); [|lia]. cbn [orb skipn Z.to_nat].
  unfold size. rewrite Nat2Z.id. apply firstn_all.
Qed.

(** From a non-negative start, [mid(position)] is a suffix. *)
Lemma midFrom_suffix (s : QString) (p : Z) :
  0 <= p -> midFrom s p = skipn (Z.to_nat p) s.
Proof.
  intros Hp. unfold midFrom, mid.
  destruct (Z.ltb_spec (size s) p) as [H|H].
  - symmetry; apply skipn_all2. unfold size in H; lia.
  - destruct (Z.ltb_spec p 0); [lia|]. cbn [Z.ltb Z.compare orb].
    apply firstn_all2. rewrite length_skipn. unfold size in *; lia.
Qed.

(** From a negative start, [mid(position)] is the whole string. *)
Lemma midFrom_neg (s : QString) (p : Z) : p < 0 -> midFrom s p = s.
Proof.
  intros Hp. unfold midFrom, mid. pose proof (size_nonneg s) as Hs.
  destruct (Z.ltb_spec (size s) p); [lia|].
  destruct (Z.ltb_spec p 0); [|lia]. reflexivity.
Qed.

(** An in-range [insert] splits the string at the index. *)
Lemma insert_inside (s : QString) (i : Z) (ch : QChar) :
  0 <= i <= size s ->
  insert s i ch = firstn (Z.to_nat i) s ++ ch :: skipn (Z.to_nat i) s.
Proof.
  intros Hi. unfold insert.
  destruct (Z.ltb_spec i 0); [lia|].
  destruct (Z.ltb_spec i 0); [lia|].
  destruct (Z.ltb_spec (size s) i); [lia|reflexivity].
Qed.

Lemma size_insert_inside (s : QString) (i : Z) (ch : QChar) :
  0 <= i <= size s -> size (insert s i ch) = size s + 1.
Proof.
  intros Hi. rewrite insert_inside by assumption.
  rewrite <- (firstn_skipn (Z.to_nat i) s) at 3.
  rewrite !size_app, size_cons. lia.
Qed.

Lemma at_0_cons (c : QChar) (s : QString) : at_ (c :: s) 0 = c.
Proof.
  unfold at_. rewrite size_cons. pose proof (size_nonneg s).
  destruct (Z.ltb_spec 0 (1 + size s)); [reflexivity|lia].
Qed.

Lemma at_1_cons (c d : QChar) (s : QString) : at_ (c :: d :: s) 1 = d.
Proof.
  unfold at_. rewrite !size_cons. pose proof (size_nonneg s).
  destruct (Z.ltb_spec 1 (1 + (1 + size s))); [reflexivity|lia].
Qed.

Lemma at_1_single (c : QChar) : at_ [c] 1 = 0%N.
Proof. reflexivity. Qed.

(** ** Worked examples of the formatters *)

(** C4 as stated (display cursor 9) does not hold: the counterexample. *)
Lemma C4_cursor_is_not_9 :
  position (PostprocessCardValidateResult (fun _ => [4; 4; 4; 4; 4])
              {| value := qs "4242424242424242"; position := 8 |}) <> 9.
Proof. vm_compute. discriminate. Qed.

(** C4 (amended): under the grouping scheme [4,4,4,4,4] the stripped digits
    "4242424242424242" are displayed as "4242 4242 4242 4242", and a
    stripped cursor at offset 8 lands at display offset 10: the spaces
    inserted at stripped offsets 4 and 8 are both at or before it. *)
Theorem C4_card_grouping :
  PostprocessCardValidateResult (fun _ => [4; 4; 4; 4; 4])
    {| value := qs "4242424242424242"; position := 8 |}
  = {| value := qs "4242 4242 4242 4242"; position := 10 |}.
Proof. vm_compute. reflexivity. Qed.

(** C5 as stated (stripped "3" becomes "03", cursor advanced by one) does
    not hold: the counterexample. *)
Lemma C5_three_is_not_03 :
  PostprocessExpireDateValidateResult {| value := qs "3"; position := 1 |}
  <> {| value := qs "03"; position := 2 |}.
Proof. vm_compute. discriminate. Qed.

(** C5 (amended): stripped "3" becomes "03/" with the cursor advanced by
    two (one for the leading zero, one for the separator), and stripped
    "035" becomes "03/5". *)
Theorem C5_expiry_month_correction :
  PostprocessExpireDateValidateResult {| value := qs "3"; position := 1 |}
  = {| value := qs "03/"; position := 3 |}
  /\ value (PostprocessExpireDateValidateResult
              {| value := qs "035"; position := 3 |}) = qs "03/5".
Proof. split; vm_compute; reflexivity. Qed.

(** C6 as stated (stripped "13" truncates to "1") does not hold: the
    counterexample. *)
Lemma C6_thirteen_is_not_cut_to_1 :
  value (PostprocessExpireDateValidateResult
           {| value := qs "13"; position := 2 |}) <> qs "1".
Proof. vm_compute. discriminate. Qed.

(** C6 (amended): stripped "13" is returned as "13", both digits kept, no
    separator inserted and the cursor untouched; only what follows the
    second digit is cut, so "135" also gives "13". *)
Theorem C6_expiry_invalid_month :
  PostprocessExpireDateValidateResult {| value := qs "13"; position := 2 |}
  = {| value := qs "13"; position := 2 |}
  /\ value (PostprocessExpireDateValidateResult
              {| value := qs "135"; position := 3 |}) = qs "13".
Proof. split; vm_compute; reflexivity. Qed.

(** ** Backspace classification *)

Lemma IsBackspace_unfold (request : FieldValidateRequest) :
  IsBackspace request = true <->
  wasAnchor request = wasPosition request
  /\ wasPosition request = nowPosition request + 1
  /\ mid (wasValue request) 0 (wasPosition request - 1)
     = mid (nowValue request) 0 (nowPosition request)
  /\ midFrom (wasValue request) (wasPosition request)
     = midFrom (nowValue request) (nowPosition request).
Proof.
  unfold IsBackspace.
  rewrite !andb_true_iff, !Z.eqb_eq, !QString_eqb_eq. tauto.
Qed.

Lemma IsDelete_unfold (request : FieldValidateRequest) :
  IsDelete request = true <->
  wasAnchor request = wasPosition request
  /\ wasPosition request = nowPosition request
  /\ mid (wasValue request) 0 (wasPosition request)
     = mid (nowValue request) 0 (nowPosition request)
  /\ midFrom (wasValue request) (wasPosition request + 1)
     = midFrom (nowValue request) (nowPosition request).
Proof.
  unfold IsDelete.
  rewrite !andb_true_iff, !Z.eqb_eq, !QString_eqb_eq. tauto.
Qed.

(** A request is never both a backspace and a delete. *)
Lemma IsBackspace_IsDelete_exclusive (request : FieldValidateRequest) :
  IsBackspace request = true -> IsDelete request = false.
Proof.
  rewrite IsBackspace_unfold. intros (_ & Hp & _).
  destruct (IsDelete request) eqn:E; [|reflexivity].
  apply IsDelete_unfold in E. lia.
Qed.

(** C8: [IsBackspace] holds exactly when the before snapshot has no
    selection, the cursor moved back by one, the text before
    [wasPosition - 1] is unchanged and the text after [wasPosition] in the
    before snapshot equals the text after [nowPosition] in the after
    snapshot; and the request from "1234" with cursor 4 to "123" with
    cursor 3 is a backspace. *)
Theorem C8_backspace_classification :
  (forall request, IsBackspace request = true <-> BackwardDelete_spec request)
  /\ IsBackspace {| wasValue := qs "1234"; wasPosition := 4; wasAnchor := 4;
                    nowValue := qs "123"; nowPosition := 3 |} = true.
Proof.
  split; [|vm_compute; reflexivity].
  intros [wv wp wa nv np]. rewrite IsBackspace_unfold.
  unfold BackwardDelete_spec, textBefore, textAfter. cbn [wasValue wasPosition wasAnchor nowValue nowPosition].
  split; intros (Ha & Hp & H1 & H2); subst wa wp;
    (split; [reflexivity|]); (split; [reflexivity|]);
    replace (np + 1 - 1) with np in * by lia.
  - destruct (Z.lt_ge_cases np 0) as [Hneg|Hpos].
    + rewrite !mid_prefix_neg in H1 by lia. subst nv. split; [reflexivity|].
      replace (Z.to_nat (np + 1)) with 0%nat by lia.
      replace (Z.to_nat np) with 0%nat by lia. reflexivity.
    + rewrite !mid_prefix in H1 by lia.
      rewrite !midFrom_suffix in H2 by lia. auto.
  - destruct (Z.lt_ge_cases np 0) as [Hneg|Hpos].
    + replace (Z.to_nat (np + 1)) with 0%nat in H2 by lia.
      replace (Z.to_nat np) with 0%nat in H2 by lia.
      cbn [skipn] in H2. subst nv.
      split; [reflexivity|]. rewrite (midFrom_neg wv np) by lia.
      destruct (Z.eq_dec (np + 1) 0) as [E|E].
      * rewrite E. apply (midFrom_suffix wv 0). lia.
      * apply midFrom_neg. lia.
    + rewrite !mid_prefix by lia. rewrite !midFrom_suffix by lia. auto.
Qed.

(** ** The numbers-only projection *)

Lemma RemoveNonNumbers_allNumbers (v : QString) :
  allNumbers (RemoveNonNumbers v) = true.
Proof.
  unfold allNumbers, RemoveNonNumbers. apply forallb_forall.
  intros c Hc. apply filter_In in Hc. tauto.
Qed.

Lemma RemoveNonNumbers_fixed (v : QString) :
  allNumbers v = true -> RemoveNonNumbers v = v.
Proof.
  unfold allNumbers, RemoveNonNumbers. induction v as [|c v IH]; cbn; [reflexivity|].
  rewrite andb_true_iff. intros [-> Hv]. f_equal; auto.
Qed.

Lemma RemoveNonNumbers_app (s t : QString) :
  RemoveNonNumbers (s ++ t) = RemoveNonNumbers s ++ RemoveNonNumbers t.
Proof. apply filter_app. Qed.

Lemma allNumbers_app (s t : QString) :
  allNumbers (s ++ t) = allNumbers s && allNumbers t.
Proof. apply forallb_app. Qed.

Lemma allNumbers_firstn (n : nat) (v : QString) :
  allNumbers v = true -> allNumbers (firstn n v) = true.
Proof.
  rewrite <- (firstn_skipn n v) at 1.
  rewrite allNumbers_app, andb_true_iff. tauto.
Qed.

Lemma allNumbers_skipn (n : nat) (v : QString) :
  allNumbers v = true -> allNumbers (skipn n v) = true.
Proof.
  rewrite <- (firstn_skipn n v) at 1.
  rewrite allNumbers_app, andb_true_iff. tauto.
Qed.

Lemma size_filter_firstn_le (n : nat) (v : QString) :
  size (RemoveNonNumbers (firstn n v)) <= size (RemoveNonNumbers v).
Proof.
  rewrite <- (firstn_skipn n v) at 2.
  rewrite RemoveNonNumbers_app, size_app.
  pose proof (size_nonneg (RemoveNonNumbers (skipn n v))). lia.
Qed.

(** The stripped cursor is always within the stripped value, whatever the
    cursor of the snapshot was. *)
Lemma NumbersOnlyState_bounds (state : SimpleFieldState) :
  0 <= position (NumbersOnlyState state)
    <= size (value (NumbersOnlyState state)).
Proof.
  destruct state as [v p]. cbn. split; [apply size_nonneg|].
  destruct (Z.lt_ge_cases p 0).
  - rewrite mid_prefix_neg by lia. apply Z.le_refl.
  - rewrite mid_prefix by lia. apply size_filter_firstn_le.
Qed.

(** On a stripped value with its cursor in bounds the projection changes
    nothing. *)
Lemma NumbersOnlyState_fixed (state : SimpleFieldState) :
  allNumbers (value state) = true ->
  0 <= position state <= size (value state) ->
  NumbersOnlyState state = state.
Proof.
  destruct state as [v p]. cbn. intros Hv Hp.
  unfold NumbersOnlyState; cbn. f_equal.
  - apply RemoveNonNumbers_fixed, Hv.
  - rewrite mid_prefix by lia.
    rewrite RemoveNonNumbers_fixed by (apply allNumbers_firstn, Hv).
    unfold size in *. rewrite length_firstn. lia.
Qed.

(** Inserting a separator and moving the cursor past it, the way both
    postprocessors do, is invisible to the projection. *)
Lemma NumbersOnlyState_insert (s : QString) (i p : Z) (ch : QChar) :
  isNumber ch = false -> 0 <= i <= size s -> 0 <= p ->
  NumbersOnlyState {| value := insert s i ch;
                      position := if i <=? p then p + 1 else p |}
  = NumbersOnlyState {| value := s; position := p |}.
Proof.
  intros Hch Hi Hp. unfold NumbersOnlyState; cbn [value position].
  rewrite insert_inside by assumption.
  assert (Hlen : List.length (firstn (Z.to_nat i) s) = Z.to_nat i).
  { rewrite length_firstn. unfold size in Hi. lia. }
  f_equal.
  - rewrite RemoveNonNumbers_app. cbn. rewrite Hch.
    rewrite <- RemoveNonNumbers_app, firstn_skipn. reflexivity.
  - f_equal.
    destruct (Z.leb_spec i p) as [Hip|Hip].
    + rewrite !mid_prefix by lia.
      replace (Z.to_nat (p + 1)) with (Z.to_nat i + S (Z.to_nat p - Z.to_nat i))%nat by lia.
      rewrite <- Hlen at 1. rewrite firstn_app_2. cbn [firstn].
      rewrite RemoveNonNumbers_app. cbn. rewrite Hch.
      rewrite <- RemoveNonNumbers_app. f_equal.
      rewrite <- (firstn_skipn (Z.to_nat i) s) at 3.
      rewrite firstn_app, Hlen.
      rewrite (firstn_all2 (n := Z.to_nat p)) by lia. reflexivity.
    + rewrite !mid_prefix by lia.
      rewrite firstn_app, Hlen.
      replace (Z.to_nat p - Z.to_nat i)%nat with 0%nat by lia.
      cbn [firstn]. rewrite app_nil_r, firstn_firstn.
      f_equal. f_equal. lia.
Qed.

(** Whatever [insert] does, it adds nothing but its character and padding
    spaces. *)
Lemma RemoveNonNumbers_insert (s : QString) (i : Z) (ch : QChar) :
  isNumber ch = false ->
  RemoveNonNumbers (insert s i ch) = RemoveNonNumbers s.
Proof.
  intros Hch. unfold insert.
  destruct ((if i <? 0 then i + size s else i) <? 0); [reflexivity|].
  destruct (size s <? (if i <? 0 then i + size s else i)).
  - rewrite !RemoveNonNumbers_app. cbn. rewrite Hch.
    replace (RemoveNonNumbers (repeat (chr " ") _)) with (@nil QChar).
    + rewrite app_nil_r. reflexivity.
    + generalize (Z.to_nat ((if i <? 0 then i + size s else i) - size s)).
      intros n; induction n; cbn; auto.
  - rewrite RemoveNonNumbers_app. cbn. rewrite Hch.
    rewrite <- RemoveNonNumbers_app, firstn_skipn. reflexivity.
Qed.

(** ** The card number postprocessor *)

Lemma isNumber_space : isNumber (chr " ") = false.
Proof. reflexivity. Qed.

Lemma isNumber_slash : isNumber (chr "/") = false.
Proof. reflexivity. Qed.

(** The digits of the value survive the loop, in order, for any group list. *)
Lemma PostprocessCard_loop_digits (groups : list Z) :
  forall position0 result,
    RemoveNonNumbers (value (PostprocessCard_loop groups position0 result))
    = RemoveNonNumbers (value result).
Proof.
  induction groups as [|g rest IH]; intros p0 r; cbn [PostprocessCard_loop].
  - reflexivity.
  - destruct (size (value r) <=? p0 + g); [reflexivity|].
    rewrite IH. cbn [value]. apply RemoveNonNumbers_insert, isNumber_space.
Qed.

(** Stripping the loop's result gives what stripping its argument gives:
    the cursor still has the same digits before it. *)
Lemma PostprocessCard_loop_strip (groups : list Z) :
  validGroups groups ->
  forall position0 result,
    0 <= position0 -> 0 <= position result ->
    NumbersOnlyState (PostprocessCard_loop groups position0 result)
    = NumbersOnlyState result.
Proof.
  induction 1 as [|g rest Hg _ IH]; intros p0 r Hp0 Hr; cbn [PostprocessCard_loop].
  - reflexivity.
  - destruct (Z.leb_spec (size (value r)) (p0 + g)) as [|Hlt]; [reflexivity|].
    rewrite IH; cbn [position].
    + rewrite NumbersOnlyState_insert by (auto using isNumber_space; lia).
      destruct r; reflexivity.
    + lia.
    + destruct (p0 + g <=? position r); lia.
Qed.

(** The loop keeps the cursor within the value. *)
Lemma PostprocessCard_loop_bounds (groups : list Z) :
  validGroups groups ->
  forall position0 result,
    0 <= position0 ->
    0 <= position result <= size (value result) ->
    0 <= position (PostprocessCard_loop groups position0 result)
      <= size (value (PostprocessCard_loop groups position0 result)).
Proof.
  induction 1 as [|g rest Hg _ IH]; intros p0 r Hp0 Hr; cbn [PostprocessCard_loop].
  - assumption.
  - destruct (Z.leb_spec (size (value r)) (p0 + g)) as [|Hlt]; [assumption|].
    apply IH; cbn [position value]; [lia|].
    rewrite size_insert_inside by lia.
    destruct (p0 + g <=? position r); lia.
Qed.

(** The card postprocessor undoes under the numbers-only projection. *)
Lemma PostprocessCard_strip (CardNumberFormat : QString -> list Z)
    (result : SimpleFieldState) :
  validGroups (CardNumberFormat (value result)) ->
  allNumbers (value result) = true ->
  0 <= position result <= size (value result) ->
  NumbersOnlyState (PostprocessCardValidateResult CardNumberFormat result)
  = result.
Proof.
  intros Hg Hv Hp. unfold PostprocessCardValidateResult.
  rewrite PostprocessCard_loop_strip by (auto; lia).
  apply NumbersOnlyState_fixed; assumption.
Qed.

(** ** The state the validators work on *)

(** The reconstructed state is a stripped value with its cursor in bounds,
    for every request. *)
Lemma realNowState_bounds (request : FieldValidateRequest) :
  allNumbers (value (realNowState request)) = true
  /\ 0 <= position (realNowState request)
       <= size (value (realNowState request)).
Proof.
  unfold realNowState.
  destruct (negb (IsBackspace request) && negb (IsDelete request)).
  - split; [apply RemoveNonNumbers_allNumbers | apply NumbersOnlyState_bounds].
  - set (was := NumbersOnlyState _).
    assert (Hv : allNumbers (value was) = true) by apply RemoveNonNumbers_allNumbers.
    pose proof (NumbersOnlyState_bounds {| value := wasValue request;
                                           position := wasPosition request |}) as Hb.
    fold was in Hb. cbn [value position].
    assert (Hsplit : size (value was)
                     = size (firstn (Z.to_nat (position was)) (value was))
                       + size (skipn (Z.to_nat (position was)) (value was))).
    { rewrite <- size_app, firstn_skipn. reflexivity. }
    assert (Hfst : forall k, 0 <= k <= size (value was) ->
                     size (firstn (Z.to_nat k) (value was)) = k).
    { intros k Hk. unfold size in *. rewrite length_firstn. lia. }
    assert (Hskp : forall k, 0 <= k ->
                     size (skipn (Z.to_nat k) (value was))
                     = Z.max 0 (size (value was) - k)).
    { intros k Hk. unfold size in *. rewrite length_skipn. lia. }
    destruct (IsDelete request).
    + rewrite mid_prefix, midFrom_suffix by lia. split.
      * rewrite allNumbers_app, allNumbers_firstn, allNumbers_skipn; auto.
      * rewrite size_app, Hfst, Hskp by lia. lia.
    + destruct (Z.ltb_spec 1 (position was)).
      * rewrite mid_prefix, midFrom_suffix by lia. split.
        -- rewrite allNumbers_app, allNumbers_firstn, allNumbers_skipn; auto.
        -- rewrite size_app, Hfst, Hskp by lia. lia.
      * rewrite midFrom_suffix by lia. split.
        -- apply allNumbers_skipn, Hv.
        -- rewrite Hskp by lia. lia.
Qed.

(** ** The expiry date postprocessor *)

Lemma isEmpty_cons (c : QChar) (s : QString) : isEmpty (c :: s) = false.
Proof.
  unfold isEmpty. rewrite size_cons. pose proof (size_nonneg s).
  apply Z.eqb_neq. lia.
Qed.

Lemma size_firstn (n : nat) (s : QString) :
  size (firstn n s) = Z.min (Z.of_nat n) (size s).
Proof. unfold size. rewrite length_firstn. lia. Qed.

(** The postprocessor with its two truncations written as prefixes. *)
Lemma PostprocessExpireDate_normal (result : SimpleFieldState) :
  PostprocessExpireDateValidateResult result
  = if invalidMonth (value result)
    then {| value := firstn 2 (value result); position := position result |}
    else
      let result1 :=
        if singleDigitMonth (value result)
        then {| value := chr "0" :: value result;
                position := position result + 1 |}
        else result in
      if 1 <? size (value result1)
      then {| value := insert (firstn 4 (value result1)) 2 (chr "/");
              position := if 2 <=? position result1
                          then position result1 + 1 else position result1 |}
      else result1.
Proof.
  destruct result as [v p]. unfold PostprocessExpireDateValidateResult.
  cbn [value position]. fold (invalidMonth v). fold (singleDigitMonth v).
  destruct v as [|a v]; [reflexivity|].
  rewrite isEmpty_cons.
  destruct (invalidMonth (a :: v)); [rewrite mid_prefix by lia; reflexivity|].
  cbv zeta.
  set (r1 := if singleDigitMonth (a :: v) then _ else _).
  destruct (1 <? size (value r1)); [|reflexivity].
  f_equal. f_equal.
  destruct (Z.ltb_spec 4 (size (value r1))).
  - rewrite mid_prefix by lia. reflexivity.
  - symmetry. apply firstn_all2. unfold size in *. lia.
Qed.

Lemma invalidMonth_inv (v : QString) :
  invalidMonth v = true ->
  exists b rest, v = chr "1" :: b :: rest /\ QChar_gtb b (chr "2") = true.
Proof.
  unfold invalidMonth. rewrite andb_true_iff. intros [H0 H1].
  destruct v as [|a [|b rest]].
  - discriminate H0.
  - rewrite at_1_single in H1. discriminate H1.
  - rewrite at_0_cons in H0. rewrite at_1_cons in H1.
    apply N.eqb_eq in H0. subst a. eauto.
Qed.

Lemma PostprocessExpireDate_digits (result : SimpleFieldState) :
  allNumbers (value result) = true ->
  RemoveNonNumbers (value (PostprocessExpireDateValidateResult result))
  = expireDigits (value result).
Proof.
  intros Hv. rewrite PostprocessExpireDate_normal. unfold expireDigits.
  destruct (invalidMonth (value result)).
  - apply RemoveNonNumbers_fixed, allNumbers_firstn, Hv.
  - cbv zeta.
    assert (Hgen : forall r1 : SimpleFieldState,
               allNumbers (value r1) = true ->
               RemoveNonNumbers
                 (value (if 1 <? size (value r1)
                         then {| value := insert (firstn 4 (value r1)) 2 (chr "/");
                                 position := if 2 <=? position r1
                                             then position r1 + 1
                                             else position r1 |}
                         else r1))
               = firstn 4 (value r1)).
    { intros r1 H1. destruct (Z.ltb_spec 1 (size (value r1))); cbn [value].
      - rewrite RemoveNonNumbers_insert by apply isNumber_slash.
        apply RemoveNonNumbers_fixed, allNumbers_firstn, H1.
      - rewrite RemoveNonNumbers_fixed by exact H1.
        symmetry. apply firstn_all2. unfold size in *. lia. }
    destruct (singleDigitMonth (value result)).
    + apply (Hgen {| value := chr "0" :: value result;
                     position := position result + 1 |}).
      cbn. exact Hv.
    + apply Hgen, Hv.
Qed.

(** ** Digit preservation *)

(** C2 as stated does not hold for the expiry formatter: the counterexample
    (stripped "3": the output "03/" has two digits). *)
Lemma C2_expiry_adds_a_digit :
  ~ sameDigits
      (value (PostprocessExpireDateValidateResult
                {| value := qs "3"; position := 1 |}))
      (qs "3").
Proof.
  intros H. apply Permutation_length in H. vm_compute in H. discriminate H.
Qed.

(** C2 (amended): for every stripped digit string, the card-number
    formatter's output holds exactly the digits of its input; the
    expiry-date formatter's output holds the first four digits of the
    input after a '0' is prepended to an input starting with a digit above
    '1' (the first two digits when the input starts with '1' followed by a
    digit above '2'), so it holds exactly the digits of its input when the
    input neither gets the zero nor is longer than what is kept. *)
Theorem C2_digit_preservation
    (CardNumberFormat : QString -> list Z) (result : SimpleFieldState) :
  allNumbers (value result) = true ->
  sameDigits (value (PostprocessCardValidateResult CardNumberFormat result))
             (value result)
  /\ RemoveNonNumbers (value (PostprocessExpireDateValidateResult result))
     = expireDigits (value result)
  /\ (singleDigitMonth (value result) = false ->
      size (value result) <= (if invalidMonth (value result) then 2 else 4) ->
      sameDigits (value (PostprocessExpireDateValidateResult result))
                 (value result)).
Proof.
  intros Hv. split; [|split].
  - unfold sameDigits, PostprocessCardValidateResult.
    rewrite PostprocessCard_loop_digits. apply Permutation_refl.
  - apply PostprocessExpireDate_digits, Hv.
  - intros Hs Hlen. unfold sameDigits.
    rewrite PostprocessExpireDate_digits by exact Hv.
    unfold expireDigits. rewrite Hs.
    rewrite (RemoveNonNumbers_fixed (value result)) by exact Hv.
    destruct (invalidMonth (value result));
      rewrite firstn_all2 by (unfold size in Hlen; lia);
      apply Permutation_refl.
Qed.

Lemma C2_digit_preservation_witness :
  sameDigits
    (value (PostprocessCardValidateResult (fun _ => [4; 4; 4; 4; 4])
              {| value := qs "1234"; position := 2 |}))
    (qs "1234")
  /\ sameDigits
       (value (PostprocessExpireDateValidateResult
                 {| value := qs "1234"; position := 2 |}))
       (qs "1234").
Proof.
  pose proof (C2_digit_preservation (fun _ => [4; 4; 4; 4; 4])
                {| value := qs "1234"; position := 2 |} eq_refl)
    as (Hcard & _ & Hexp).
  split; [exact Hcard|].
  apply Hexp; [reflexivity | vm_compute; discriminate].
Defined.

(** ** Reformatting a formatted value *)

(** Stripping the expiry postprocessor's result gives back the digits it
    kept, with the cursor among them, as long as the result's cursor is
    within the result's value. *)
Lemma PostprocessExpireDate_refixed (result : SimpleFieldState) :
  allNumbers (value result) = true ->
  0 <= position result ->
  position (PostprocessExpireDateValidateResult result)
    <= size (value (PostprocessExpireDateValidateResult result)) ->
  PostprocessExpireDateValidateResult
    (NumbersOnlyState (PostprocessExpireDateValidateResult result))
  = PostprocessExpireDateValidateResult result.
Proof.
  intros Hv Hp. rewrite (PostprocessExpireDate_normal result).
  destruct (invalidMonth (value result)) eqn:Einv.
  - (* invalid month: the first two digits, no separator *)
    cbn [value position]. intros Hin.
    destruct (invalidMonth_inv _ Einv) as (b & rest & Hval & Hb).
    rewrite NumbersOnlyState_fixed; cbn [value position];
      [| apply allNumbers_firstn, Hv | lia].
    rewrite PostprocessExpireDate_normal. cbn [value position].
    rewrite Hval in *. cbn [firstn] in *.
    assert (E2 : invalidMonth [chr "1"; b] = true)
      by (unfold invalidMonth; rewrite at_0_cons, at_1_cons, Hb; reflexivity).
    rewrite E2. reflexivity.
  - cbv zeta.
    assert (Hgen : forall r1 : SimpleFieldState,
               allNumbers (value r1) = true -> 0 <= position r1 ->
               invalidMonth (value r1) = false ->
               singleDigitMonth (value r1) = false ->
               let out := if 1 <? size (value r1)
                          then {| value := insert (firstn 4 (value r1)) 2 (chr "/");
                                  position := if 2 <=? position r1
                                              then position r1 + 1
                                              else position r1 |}
                          else r1 in
               position out <= size (value out) ->
               PostprocessExpireDateValidateResult (NumbersOnlyState out) = out).
    { intros [v1 p1]; cbn [value position]. intros H1 Hp1 Hi1 Hs1.
      destruct (Z.ltb_spec 1 (size v1)) as [Hlong|Hshort]; cbn [value position].
      - assert (Hsz : size (firstn 4 v1) = Z.min 4 (size v1))
          by (rewrite size_firstn; reflexivity).
        rewrite size_insert_inside by lia. intros Hin.
        rewrite NumbersOnlyState_insert by (auto using isNumber_slash; lia).
        rewrite NumbersOnlyState_fixed; cbn [value position];
          [| apply allNumbers_firstn, H1 | destruct (Z.leb_spec 2 p1); lia].
        destruct v1 as [|x [|y rest]];
          [cbn in Hlong; lia | cbn in Hlong; lia |].
        change (firstn 4 (x :: y :: rest)) with (x :: y :: firstn 2 rest).
        assert (Ei : invalidMonth (x :: y :: firstn 2 rest) = false)
          by (unfold invalidMonth in *;
              rewrite at_0_cons, at_1_cons in *; exact Hi1).
        assert (Es : singleDigitMonth (x :: y :: firstn 2 rest) = false)
          by (unfold singleDigitMonth in *; rewrite at_0_cons in *; exact Hs1).
        assert (El : (1 <? size (x :: y :: firstn 2 rest)) = true).
        { apply Z.ltb_lt. rewrite !size_cons.
          pose proof (size_nonneg (firstn 2 rest)). lia. }
        assert (Ew : firstn 4 (x :: y :: firstn 2 rest) = x :: y :: firstn 2 rest).
        { apply firstn_all2. cbn [List.length]. rewrite length_firstn. lia. }
        rewrite PostprocessExpireDate_normal. cbn [value position].
        rewrite Ei, Es. cbn [value position]. rewrite El, Ew.
        reflexivity.
      - intros Hin.
        rewrite NumbersOnlyState_fixed by (cbn [value position]; auto; lia).
        rewrite PostprocessExpireDate_normal. cbn [value position].
        rewrite Hi1, Hs1. cbn [value position].
        destruct (Z.ltb_spec 1 (size v1)); [lia | reflexivity]. }
    destruct (singleDigitMonth (value result)) eqn:Esgl.
    + apply (Hgen {| value := chr "0" :: value result;
                     position := position result + 1 |});
        cbn [value position]; [cbn; exact Hv | lia | |].
      * unfold invalidMonth. rewrite at_0_cons. reflexivity.
      * unfold singleDigitMonth. rewrite at_0_cons. reflexivity.
    + destruct result as [v p]. apply Hgen; auto.
Qed.

(** C3 as stated does not hold: the counterexample.  Formatting the
    formatted expiry "12/" again gives "12//", and formatting the formatted
    card number "4242 4242" again (scheme [4,4,4,4,4]) inserts a second
    space. *)
Lemma C3_format_twice_differs :
  PostprocessExpireDateValidateResult
    (PostprocessExpireDateValidateResult {| value := qs "12"; position := 2 |})
  <> PostprocessExpireDateValidateResult {| value := qs "12"; position := 2 |}
  /\ PostprocessCardValidateResult (fun _ => [4; 4; 4; 4; 4])
       (PostprocessCardValidateResult (fun _ => [4; 4; 4; 4; 4])
          {| value := qs "42424242"; position := 8 |})
     <> PostprocessCardValidateResult (fun _ => [4; 4; 4; 4; 4])
          {| value := qs "42424242"; position := 8 |}.
Proof. split; vm_compute; discriminate. Qed.

(** C3 (amended): for every stripped state with a valid cursor, formatting
    is idempotent through the numbers-only projection the validators apply
    before each formatting: stripping the formatter's output and formatting
    it again reproduces that output, value and cursor.  For the card-number
    formatter this holds always (the projection even gives back the
    formatter's input); for the expiry-date formatter it holds whenever the
    formatter's output has its cursor within its value. *)
Theorem C3_reformat_idempotent
    (CardNumberFormat : QString -> list Z) (x : SimpleFieldState) :
  allNumbers (value x) = true ->
  0 <= position x <= size (value x) ->
  validGroups (CardNumberFormat (value x)) ->
  NumbersOnlyState (PostprocessCardValidateResult CardNumberFormat x) = x
  /\ PostprocessCardValidateResult CardNumberFormat
       (NumbersOnlyState (PostprocessCardValidateResult CardNumberFormat x))
     = PostprocessCardValidateResult CardNumberFormat x
  /\ (position (PostprocessExpireDateValidateResult x)
        <= size (value (PostprocessExpireDateValidateResult x)) ->
      PostprocessExpireDateValidateResult
        (NumbersOnlyState (PostprocessExpireDateValidateResult x))
      = PostprocessExpireDateValidateResult x).
Proof.
  intros Hv Hp Hg.
  assert (Hs := PostprocessCard_strip CardNumberFormat x Hg Hv Hp).
  split; [exact Hs|]. split.
  - rewrite Hs. reflexivity.
  - apply PostprocessExpireDate_refixed; [exact Hv | lia].
Qed.

Lemma C3_reformat_idempotent_witness :
  PostprocessCardValidateResult (fun _ => [4; 4; 4; 4; 4])
    (NumbersOnlyState
       (PostprocessCardValidateResult (fun _ => [4; 4; 4; 4; 4])
          {| value := qs "12345"; position := 2 |}))
  = PostprocessCardValidateResult (fun _ => [4; 4; 4; 4; 4])
      {| value := qs "12345"; position := 2 |}
  /\ PostprocessExpireDateValidateResult
       (NumbersOnlyState
          (PostprocessExpireDateValidateResult
             {| value := qs "12345"; position := 2 |}))
     = PostprocessExpireDateValidateResult
         {| value := qs "12345"; position := 2 |}.
Proof.
  assert (Hg : validGroups [4; 4; 4; 4; 4]) by (repeat constructor; lia).
  assert (Hp : 0 <= 2 <= size (qs "12345")) by (vm_compute; split; discriminate).
  pose proof (C3_reformat_idempotent (fun _ => [4; 4; 4; 4; 4])
                {| value := qs "12345"; position := 2 |}
                eq_refl Hp Hg)
    as (_ & Hcard & Hexp).
  split; [exact Hcard|].
  apply Hexp. vm_compute. discriminate.
Defined.

(** ** Cursor bounds of the validators' results *)

(** The card number validator returns the cursor within the value. *)
Lemma CardNumberValidator_bounds
    (ValidateCard : QString -> Stripe.ValidationResult)
    (CardNumberFormat : QString -> list Z)
    (request : FieldValidateRequest) :
  (forall v, validGroups (CardNumberFormat v)) ->
  let result := CardNumberValidator ValidateCard CardNumberFormat request in
  0 <= result_position result <= size (result_value result).
Proof.
  intros Hg. cbn.
  destruct (realNowState_bounds request) as [_ Hb].
  unfold PostprocessCardValidateResult.
  apply PostprocessCard_loop_bounds; auto. lia.
Qed.

(** So does the CVC validator. *)
Lemma CvcValidator_bounds
    (ValidateCvc : QString -> QString -> Stripe.ValidationResult)
    (number : QString) (request : FieldValidateRequest) :
  let result := CvcValidator ValidateCvc number request in
  0 <= result_position result <= size (result_value result).
Proof.
  cbn. apply (NumbersOnlyState_bounds
                {| value := nowValue request; position := nowPosition request |}).
Qed.

(** The expiry date validator does when nothing is cut off the value. *)
Lemma PostprocessExpireDate_bounds (result : SimpleFieldState) :
  0 <= position result <= size (value result) ->
  invalidMonth (value result) = false ->
  size (value result) <= (if singleDigitMonth (value result) then 3 else 4) ->
  0 <= position (PostprocessExpireDateValidateResult result)
    <= size (value (PostprocessExpireDateValidateResult result)).
Proof.
  intros Hp Hi Hlen. rewrite PostprocessExpireDate_normal, Hi. cbv zeta.
  assert (Hgen : forall r1 : SimpleFieldState,
             0 <= position r1 <= size (value r1) -> size (value r1) <= 4 ->
             let out := if 1 <? size (value r1)
                        then {| value := insert (firstn 4 (value r1)) 2 (chr "/");
                                position := if 2 <=? position r1
                                            then position r1 + 1
                                            else position r1 |}
                        else r1 in
             0 <= position out <= size (value out)).
  { intros r1 H1 H4. destruct (Z.ltb_spec 1 (size (value r1))); [|exact H1].
    cbn [value position].
    rewrite size_insert_inside by (rewrite size_firstn; lia).
    rewrite size_firstn. destruct (2 <=? position r1); lia. }
  destruct (singleDigitMonth (value result)).
  - apply (Hgen {| value := chr "0" :: value result;
                   position := position result + 1 |});
      cbn [value position]; rewrite size_cons; lia.
  - apply Hgen; assumption.
Qed.

(** C1 fails on the code.  Typing a fifth digit at the end of a complete
    expiry date: the value is cut back to "12/34" while the cursor is
    still moved past the separator, so the validator returns cursor 6 for
    a value of length 5. *)
Theorem C1_expiry_cursor_past_end
    (ValidateExpireDate : QString -> Stripe.ValidationResult) :
  let result :=
    ExpireDateValidator ValidateExpireDate
      {| wasValue := qs "12/34"; wasPosition := 5; wasAnchor := 5;
         nowValue := qs "12/345"; nowPosition := 6 |} in
  result_value result = qs "12/34"
  /\ result_position result = 6
  /\ size (result_value result) < result_position result.
Proof. cbn zeta. repeat split. Qed.

(** ** Character reads of the expiry date postprocessor *)

(** The logging version computes what the plain one computes. *)
Lemma PostprocessExpireDate_reads_result (result : SimpleFieldState) :
  fst (PostprocessExpireDate_reads result)
  = PostprocessExpireDateValidateResult result.
Proof.
  unfold PostprocessExpireDate_reads, PostprocessExpireDateValidateResult, readAt.
  destruct (isEmpty (value result)); [reflexivity|].
  destruct (QChar_eqb (at_ (value result) 0) (chr "1")); cbn [andb];
    [destruct (QChar_gtb (at_ (value result) 1) (chr "2"))|];
    reflexivity.
Qed.

(** Position 1 is read exactly when the value starts with '1', whatever
    its length. *)
Lemma PostprocessExpireDate_reads_second (result : SimpleFieldState) :
  isEmpty (value result) = false ->
  at_ (value result) 0 = chr "1" ->
  In {| read_index := 1; read_size := size (value result) |}
     (snd (PostprocessExpireDate_reads result)).
Proof.
  intros He H0. unfold PostprocessExpireDate_reads, readAt.
  rewrite He, H0.
  change (QChar_eqb (chr "1") (chr "1")) with true. cbv iota.
  destruct (QChar_gtb (at_ (value result) 1) (chr "2")).
  - cbn [snd]. right. left. reflexivity.
  - destruct (QChar_gtb (chr "1") (chr "1")); cbn [snd]; right; left; reflexivity.
Qed.

(** C7 fails on the code.  For the stripped value "1" the postprocessor
    evaluates [result.value[1]] on a string of size 1: index 1 is not
    within [0, size). *)
Theorem C7_expiry_reads_past_end :
  snd (PostprocessExpireDate_reads {| value := qs "1"; position := 1 |})
  = [ {| read_index := 0; read_size := 1 |};
      {| read_index := 1; read_size := 1 |};
      {| read_index := 0; read_size := 1 |} ]
  /\ forallb inBounds
       (snd (PostprocessExpireDate_reads {| value := qs "1"; position := 1 |}))
     = false.
Proof. split; reflexivity. Qed.

(** ** Reconstruction after a backspace *)

(** C9 as stated does not hold: the counterexamples.  With the stripped
    cursor at 1 ("1|2", backspace) the code removes the digit before the
    cursor and leaves "2", where the spec's wording removes the digit at
    the cursor and leaves "1"; with the stripped cursor at 0 (" |12", the
    backspace took the leading space) the code removes nothing, where the
    spec's wording removes the digit at the cursor. *)
Lemma C9_backspace_removes_before_cursor :
  let request1 := {| wasValue := qs "12"; wasPosition := 1; wasAnchor := 1;
                     nowValue := qs "2"; nowPosition := 0 |} in
  let request2 := {| wasValue := qs " 12"; wasPosition := 1; wasAnchor := 1;
                     nowValue := qs "12"; nowPosition := 0 |} in
  (IsBackspace request1 = true /\ IsDelete request1 = false
   /\ value (realNowState request1) = qs "2"
   /\ value (reconstructBackwardDelete_spec
               {| value := wasValue request1;
                  position := wasPosition request1 |}) = qs "1"
   /\ realNowState request1
      <> reconstructBackwardDelete_spec
           {| value := wasValue request1; position := wasPosition request1 |})
  /\
  (IsBackspace request2 = true /\ IsDelete request2 = false
   /\ value (realNowState request2) = qs "12"
   /\ value (reconstructBackwardDelete_spec
               {| value := wasValue request2;
                  position := wasPosition request2 |}) = qs "2"
   /\ realNowState request2
      <> reconstructBackwardDelete_spec
           {| value := wasValue request2; position := wasPosition request2 |}).
Proof.
  cbv zeta. split; repeat (split; [vm_compute; reflexivity|]);
    vm_compute; discriminate.
Qed.

(** C9 (amended): for every request classified as a backspace (such a
    request is never a delete), the reconstructed state starts from the
    numbers-only projection of the before snapshot and removes the digit
    immediately before the stripped cursor whenever that cursor is at
    least 1; with the stripped cursor at 0 nothing is removed.  The
    resulting cursor is the stripped cursor decreased by one, floored
    at 0. *)
Theorem C9_backspace_reconstruction (request : FieldValidateRequest) :
  IsBackspace request = true ->
  let realWasState :=
    NumbersOnlyState {| value := wasValue request;
                        position := wasPosition request |} in
  IsDelete request = false
  /\ realNowState request
     = {| value := if 1 <=? position realWasState
                   then removeAt (position realWasState - 1) (value realWasState)
                   else value realWasState;
          position := Z.max (position realWasState - 1) 0 |}.
Proof.
  intros Hb was. pose proof (IsBackspace_IsDelete_exclusive request Hb) as Hd.
  split; [exact Hd|].
  unfold realNowState. rewrite Hb, Hd. cbn [negb andb]. fold was.
  pose proof (NumbersOnlyState_bounds {| value := wasValue request;
                                         position := wasPosition request |}) as Hp.
  fold was in Hp. f_equal. unfold removeAt.
  destruct (Z.ltb_spec 1 (position was)) as [H1|H1].
  - destruct (Z.leb_spec 1 (position was)); [|lia].
    rewrite mid_prefix, midFrom_suffix by lia.
    do 2 f_equal. lia.
  - rewrite midFrom_suffix by lia.
    destruct (Z.leb_spec 1 (position was)) as [H2|H2].
    + replace (position was) with 1 by lia. reflexivity.
    + replace (position was) with 0 by lia. reflexivity.
Qed.

Lemma C9_backspace_reconstruction_witness :
  realNowState {| wasValue := qs "4242 4242"; wasPosition := 9; wasAnchor := 9;
                  nowValue := qs "4242 424"; nowPosition := 8 |}
  = {| value := qs "4242424"; position := 7 |}.
Proof.
  exact (proj2 (C9_backspace_reconstruction
                  {| wasValue := qs "4242 4242"; wasPosition := 9; wasAnchor := 9;
                     nowValue := qs "4242 424"; nowPosition := 8 |}
                  eq_refl)).
Defined.

(** ** The CVC validator and the reconstruction *)

(** C10 as stated does not hold: the counterexample.  Deleting the space
    of "1| 2": the request is a delete, the reconstruction removes the
    digit after the space and yields "1", the CVC validator strips the
    after snapshot and yields "12". *)
Lemma C10_cvc_is_not_reconstructed :
  let request := {| wasValue := qs "1 2"; wasPosition := 1; wasAnchor := 1;
                    nowValue := qs "12"; nowPosition := 1 |} in
  IsDelete request = true
  /\ value (realNowState request) = qs "1"
  /\ result_value (CvcValidator (fun _ _ => alwaysIncomplete) (qs "4242") request)
     = qs "12"
  /\ result_value (CvcValidator (fun _ _ => alwaysIncomplete) (qs "4242") request)
     <> value (realNowState request).
Proof.
  cbv zeta. repeat (split; [vm_compute; reflexivity|]).
  vm_compute. discriminate.
Qed.

(** On a stripped string the projection's cursor is the length of the
    prefix before the snapshot cursor. *)
Lemma NumbersOnlyState_allNumbers (v : QString) (p : Z) :
  allNumbers v = true -> 0 <= p ->
  NumbersOnlyState {| value := v; position := p |}
  = {| value := v; position := Z.min p (size v) |}.
Proof.
  intros Hv Hp. unfold NumbersOnlyState. cbn [value position].
  rewrite mid_prefix by lia.
  rewrite !RemoveNonNumbers_fixed by auto using allNumbers_firstn.
  rewrite size_firstn. f_equal. lia.
Qed.

(** C10 (amended): the CVC validator's value and cursor are always the
    numbers-only projection of the after snapshot; it runs no
    reconstruction.  They equal the reconstruction used by the card-number
    and expiry-date validators for every request classified neither as a
    backspace nor as a delete, and for every request whose before snapshot
    is a digits-only value with the cursor not beyond its end and whose
    after cursor is not negative. *)
Theorem C10_cvc_versus_reconstruction
    (ValidateCvc : QString -> QString -> Stripe.ValidationResult)
    (number : QString) (request : FieldValidateRequest) :
  let result := CvcValidator ValidateCvc number request in
  let stripped := NumbersOnlyState {| value := nowValue request;
                                      position := nowPosition request |} in
  (result_value result = value stripped
   /\ result_position result = position stripped)
  /\ (IsBackspace request = false -> IsDelete request = false ->
      realNowState request = stripped)
  /\ (allNumbers (wasValue request) = true ->
      wasPosition request <= size (wasValue request) ->
      0 <= nowPosition request ->
      result_value result = value (realNowState request)
      /\ result_position result = position (realNowState request)).
Proof.
  cbv zeta. split; [split; reflexivity|]. split.
  - intros Hb Hd. unfold realNowState. rewrite Hb, Hd. reflexivity.
  - destruct request as [wv wp wa nv np].
    cbn [CvcValidator result_value result_position
         wasValue wasPosition nowValue nowPosition].
    intros Hv Hwp Hnp.
    unfold realNowState.
    destruct (IsBackspace _) eqn:Hb; [|destruct (IsDelete _) eqn:Hd];
      cbn [negb andb]; [| |split; reflexivity].
    + (* backspace *)
      rewrite (IsBackspace_IsDelete_exclusive _ Hb).
      apply IsBackspace_unfold in Hb.
      cbn [wasValue wasPosition wasAnchor nowValue nowPosition] in *.
      destruct Hb as (_ & Hpos & Hpre & Hsuf). subst wp.
      replace (np + 1 - 1) with np in Hpre by lia.
      rewrite !mid_prefix in Hpre by lia.
      rewrite !midFrom_suffix in Hsuf by lia.
      assert (Hnv : nv = firstn (Z.to_nat np) wv ++ skipn (Z.to_nat (np + 1)) wv).
      { rewrite <- (firstn_skipn (Z.to_nat np) nv) at 1. congruence. }
      assert (Hnum : allNumbers nv = true).
      { rewrite Hnv, allNumbers_app, allNumbers_firstn, allNumbers_skipn; auto. }
      rewrite (NumbersOnlyState_allNumbers wv) by (auto; lia).
      rewrite (NumbersOnlyState_allNumbers nv) by (auto; lia).
      cbn [value position].
      assert (Hsz : size nv = size wv - 1).
      { rewrite Hnv, size_app, size_firstn. unfold size.
        rewrite length_skipn. unfold size in Hwp. lia. }
      replace (Z.min (np + 1) (size wv)) with (np + 1) by lia.
      split; [|lia].
      destruct (Z.ltb_spec 1 (np + 1)).
      * rewrite mid_prefix, midFrom_suffix by lia.
        replace (np + 1 - 1) with np by lia. exact Hnv.
      * rewrite midFrom_suffix by lia. rewrite Hnv.
        replace np with 0 by lia. reflexivity.
    + (* delete *)
      apply IsDelete_unfold in Hd.
      cbn [wasValue wasPosition wasAnchor nowValue nowPosition] in *.
      destruct Hd as (_ & Hpos & Hpre & Hsuf). subst wp.
      rewrite !mid_prefix in Hpre by lia.
      rewrite !midFrom_suffix in Hsuf by lia.
      assert (Hnv : nv = firstn (Z.to_nat np) wv ++ skipn (Z.to_nat (np + 1)) wv).
      { rewrite <- (firstn_skipn (Z.to_nat np) nv) at 1. congruence. }
      assert (Hnum : allNumbers nv = true).
      { rewrite Hnv, allNumbers_app, allNumbers_firstn, allNumbers_skipn; auto. }
      rewrite (NumbersOnlyState_allNumbers wv) by (auto; lia).
      rewrite (NumbersOnlyState_allNumbers nv) by (auto; lia).
      cbn [value position].
      replace (Z.min np (size wv)) with np by lia.
      rewrite mid_prefix, midFrom_suffix by lia.
      split; [exact Hnv|].
      assert (Hsz : np <= size nv).
      { rewrite Hnv, size_app, size_firstn.
        pose proof (size_nonneg (skipn (Z.to_nat (np + 1)) wv)). lia. }
      lia.
Qed.

Lemma C10_cvc_versus_reconstruction_witness :
  let request := {| wasValue := qs "123"; wasPosition := 3; wasAnchor := 3;
                    nowValue := qs "12"; nowPosition := 2 |} in
  result_value (CvcValidator (fun _ _ => alwaysIncomplete) (qs "4242") request)
  = value (realNowState request)
  /\ result_position (CvcValidator (fun _ _ => alwaysIncomplete) (qs "4242") request)
     = position (realNowState request).
Proof.
  cbv zeta.
  apply (proj2 (proj2 (C10_cvc_versus_reconstruction
                         (fun _ _ => alwaysIncomplete) (qs "4242")
                         {| wasValue := qs "123"; wasPosition := 3; wasAnchor := 3;
                            nowValue := qs "12"; nowPosition := 2 |}))).
  - reflexivity.
  - vm_compute. discriminate.
  - vm_compute. discriminate.
Defined.

(** * Further properties of the code *)

(** ** Delete detection and reconstruction *)

(** X1: [IsDelete] holds exactly for the edit the Delete key makes (no
    selection, cursor unchanged, text before the cursor unchanged, text
    after [wasPosition + 1] equal to the text after [nowPosition]), for
    every request, whatever Qt's [midRef] does with out-of-range
    cursors. *)
Theorem X1_IsDelete_characterised (request : FieldValidateRequest) :
  IsDelete request = true <-> ForwardDelete_plain request.
Proof.
  destruct request as [wv wp wa nv np]. rewrite IsDelete_unfold.
  unfold ForwardDelete_plain, textBefore, textAfter.
  cbn [wasValue wasPosition wasAnchor nowValue nowPosition].
  split; intros (Ha & Hp & H1 & H2); subst wa wp;
    (split; [reflexivity|]); (split; [reflexivity|]).
  - destruct (Z.lt_ge_cases np 0) as [Hneg|Hpos].
    + rewrite !mid_prefix_neg in H1 by lia. subst nv. split; [reflexivity|].
      replace (Z.to_nat (np + 1)) with 0%nat by lia.
      replace (Z.to_nat np) with 0%nat by lia. reflexivity.
    + rewrite !mid_prefix in H1 by lia.
      rewrite !midFrom_suffix in H2 by lia. auto.
  - destruct (Z.lt_ge_cases np 0) as [Hneg|Hpos].
    + replace (Z.to_nat (np + 1)) with 0%nat in H2 by lia.
      replace (Z.to_nat np) with 0%nat in H2 by lia.
      cbn [skipn] in H2. subst nv.
      split; [reflexivity|]. rewrite (midFrom_neg wv np) by lia.
      destruct (Z.eq_dec (np + 1) 0) as [E|E].
      * rewrite E. apply (midFrom_suffix wv 0). lia.
      * apply midFrom_neg. lia.
    + rewrite !mid_prefix by lia. rewrite !midFrom_suffix by lia. auto.
Qed.

(** X2: no request is classified both as a backspace and as a delete. *)
Theorem X2_backspace_and_delete_exclusive (request : FieldValidateRequest) :
  IsBackspace request && IsDelete request = false.
Proof.
  destruct (IsBackspace request) eqn:Hb; [|reflexivity].
  cbn [andb]. apply IsBackspace_IsDelete_exclusive, Hb.
Qed.

(** X3: for a request classified as a delete, the reconstructed state is
    the numbers-only projection of the before snapshot without the digit
    at the stripped cursor (unchanged when the cursor is at the end), and
    the stripped cursor stays where it was. *)
Theorem X3_delete_reconstruction (request : FieldValidateRequest) :
  IsDelete request = true ->
  let realWasState :=
    NumbersOnlyState {| value := wasValue request;
                        position := wasPosition request |} in
  realNowState request
  = {| value := removeAt (position realWasState) (value realWasState);
       position := position realWasState |}
  /\ size (value (realNowState request))
     = (if position realWasState <? size (value realWasState)
        then size (value realWasState) - 1
        else size (value realWasState)).
Proof.
  intros Hd was.
  assert (Hb : IsBackspace request = false).
  { destruct (IsBackspace request) eqn:E; [|reflexivity].
    rewrite (IsBackspace_IsDelete_exclusive _ E) in Hd. discriminate Hd. }
  pose proof (NumbersOnlyState_bounds {| value := wasValue request;
                                         position := wasPosition request |}) as Hp.
  fold was in Hp.
  assert (Heq : realNowState request
                = {| value := removeAt (position was) (value was);
                     position := position was |}).
  { unfold realNowState. rewrite Hb, Hd. cbn [negb andb]. fold was.
    f_equal. unfold removeAt.
    rewrite mid_prefix, midFrom_suffix by lia. do 2 f_equal. lia. }
  split; [exact Heq|]. rewrite Heq. cbn [value]. unfold removeAt.
  rewrite size_app. unfold size in *.
  rewrite length_firstn, length_skipn.
  destruct (Z.ltb_spec (position was) (Z.of_nat (List.length (value was)))); lia.
Qed.

Lemma X3_delete_reconstruction_witness :
  realNowState {| wasValue := qs "4242 4242"; wasPosition := 4; wasAnchor := 4;
                  nowValue := qs "42424242"; nowPosition := 4 |}
  = {| value := qs "4242242"; position := 4 |}.
Proof.
  exact (proj1 (X3_delete_reconstruction
                  {| wasValue := qs "4242 4242"; wasPosition := 4; wasAnchor := 4;
                     nowValue := qs "42424242"; nowPosition := 4 |}
                  eq_refl)).
Defined.

(** X4: whatever the request (cursors out of range included), the state
    the validators work on holds digits only and has its cursor within
    the value. *)
Theorem X4_realNowState_wellformed (request : FieldValidateRequest) :
  allNumbers (value (realNowState request)) = true
  /\ 0 <= position (realNowState request)
       <= size (value (realNowState request)).
Proof. apply realNowState_bounds. Qed.

(** ** The numbers-only projection *)

Lemma NumbersOnlyState_twice (state : SimpleFieldState) :
  NumbersOnlyState (NumbersOnlyState state) = NumbersOnlyState state.
Proof.
  apply NumbersOnlyState_fixed;
    [apply RemoveNonNumbers_allNumbers | apply NumbersOnlyState_bounds].
Qed.

(** X5: the projection yields digits only, with the cursor within them
    for any snapshot cursor, and projecting twice changes nothing more. *)
Theorem X5_NumbersOnlyState_idempotent (state : SimpleFieldState) :
  allNumbers (value (NumbersOnlyState state)) = true
  /\ 0 <= position (NumbersOnlyState state)
       <= size (value (NumbersOnlyState state))
  /\ NumbersOnlyState (NumbersOnlyState state) = NumbersOnlyState state.
Proof.
  assert (Hv : allNumbers (value (NumbersOnlyState state)) = true)
    by apply RemoveNonNumbers_allNumbers.
  pose proof (NumbersOnlyState_bounds state) as Hb.
  repeat split; try tauto.
  apply NumbersOnlyState_fixed; assumption.
Qed.

(** X6: a snapshot cursor outside the value is mapped to the end of the
    stripped value: one beyond the end, and also a negative one, since
    [mid(0, n)] with a negative [n] is the whole string. *)
Theorem X6_NumbersOnlyState_cursor_out_of_range (state : SimpleFieldState) :
  position state < 0 \/ size (value state) <= position state ->
  position (NumbersOnlyState state) = size (value (NumbersOnlyState state)).
Proof.
  destruct state as [v p]. cbn [value position NumbersOnlyState].
  intros [Hneg|Hbig].
  - rewrite mid_prefix_neg by lia. reflexivity.
  - pose proof (size_nonneg v).
    rewrite mid_prefix by lia. rewrite firstn_all2; [reflexivity|].
    unfold size in *. lia.
Qed.

Lemma X6_NumbersOnlyState_cursor_out_of_range_witness :
  position (NumbersOnlyState {| value := qs "12/34"; position := -1 |}) = 4.
Proof.
  exact (X6_NumbersOnlyState_cursor_out_of_range
           {| value := qs "12/34"; position := -1 |}
           (or_introl (proj1 (Z.ltb_lt (-1) 0) eq_refl))).
Defined.

(** ** The card number postprocessor and validator *)

Lemma last_app_nonempty (a b : QString) (d : QChar) :
  b <> [] -> last (a ++ b) d = last b d.
Proof.
  intros Hb. induction a as [|x a IH]; [reflexivity|].
  cbn [app]. destruct (a ++ b) eqn:E.
  - apply app_eq_nil in E. tauto.
  - rewrite <- IH. reflexivity.
Qed.

Lemma PostprocessCard_loop_last (groups : list Z) (d : QChar) :
  validGroups groups ->
  forall position0 result,
    0 <= position0 ->
    last (value (PostprocessCard_loop groups position0 result)) d
    = last (value result) d.
Proof.
  induction 1 as [|g rest Hg _ IH]; intros p0 r Hp0; cbn [PostprocessCard_loop].
  - reflexivity.
  - destruct (Z.leb_spec (size (value r)) (p0 + g)) as [|Hlt]; [reflexivity|].
    rewrite IH by lia. cbn [value].
    rewrite insert_inside by lia.
    assert (Hne : skipn (Z.to_nat (p0 + g)) (value r) <> []).
    { intros E. apply (f_equal (@List.length QChar)) in E.
      rewrite length_skipn in E. cbn in E. unfold size in Hlt. lia. }
    change (chr " " :: skipn (Z.to_nat (p0 + g)) (value r))
      with ([chr " "] ++ skipn (Z.to_nat (p0 + g)) (value r)).
    rewrite app_assoc, !last_app_nonempty by exact Hne.
    rewrite <- (firstn_skipn (Z.to_nat (p0 + g)) (value r)) at 2.
    rewrite last_app_nonempty by exact Hne. reflexivity.
Qed.

(** X7: the card number postprocessor never ends the value with a
    separator: whatever the cursor, the last character of the result is
    the last character of the argument. *)
Theorem X7_card_no_trailing_separator
    (CardNumberFormat : QString -> list Z) (result : SimpleFieldState)
    (d : QChar) :
  validGroups (CardNumberFormat (value result)) ->
  last (value (PostprocessCardValidateResult CardNumberFormat result)) d
  = last (value result) d.
Proof.
  intros Hg. unfold PostprocessCardValidateResult.
  apply PostprocessCard_loop_last; [exact Hg | lia].
Qed.

Lemma X7_card_no_trailing_separator_witness :
  last (value (PostprocessCardValidateResult (fun _ => [4; 4; 4; 4; 4])
                 {| value := qs "42424242"; position := 8 |})) 0%N
  = chr "2".
Proof.
  assert (Hg : validGroups [4; 4; 4; 4; 4]) by (repeat constructor; lia).
  exact (X7_card_no_trailing_separator (fun _ => [4; 4; 4; 4; 4])
           {| value := qs "42424242"; position := 8 |} 0%N Hg).
Defined.

Lemma PostprocessCard_loop_cursor (groups : list Z) :
  validGroups groups ->
  forall position0 result,
    0 <= position0 ->
    let out := PostprocessCard_loop groups position0 result in
    size (value result) <= size (value out)
      <= size (value result) + Z.of_nat (List.length groups)
    /\ position result <= position out
         <= position result + (size (value out) - size (value result))
    /\ (size (value result) <= position result ->
        position out - position result
        = size (value out) - size (value result)).
Proof.
  induction 1 as [|g rest Hg _ IH]; intros p0 r Hp0; cbn [PostprocessCard_loop].
  - cbv zeta. cbn [List.length]. lia.
  - destruct (Z.leb_spec (size (value r)) (p0 + g)) as [|Hlt].
    + cbv zeta. cbn [List.length]. lia.
    + set (r' := {| value := insert (value r) (p0 + g) (chr " ");
                    position := if p0 + g <=? position r
                                then position r + 1 else position r |}).
      specialize (IH (p0 + g + 1) r' ltac:(lia)). cbv zeta in IH |- *.
      assert (Hs : size (value r') = size (value r) + 1)
        by (apply size_insert_inside; lia).
      assert (Hp : position r' = if p0 + g <=? position r
                                 then position r + 1 else position r)
        by reflexivity.
      cbn [List.length].
      destruct (Z.leb_spec (p0 + g) (position r)); lia.
Qed.

(** X8: the card number postprocessor only lengthens the value, by at most
    one separator per group; it never moves the cursor back, and moves it
    forward by at most the number of separators inserted, by exactly that
    number when the cursor was at (or beyond) the end, so a cursor at the
    end stays at the end. *)
Theorem X8_card_cursor_movement
    (CardNumberFormat : QString -> list Z) (result : SimpleFieldState) :
  validGroups (CardNumberFormat (value result)) ->
  let out := PostprocessCardValidateResult CardNumberFormat result in
  size (value result) <= size (value out)
    <= size (value result)
       + Z.of_nat (List.length (CardNumberFormat (value result)))
  /\ position result <= position out
       <= position result + (size (value out) - size (value result))
  /\ (position result = size (value result) ->
      position out = size (value out)).
Proof.
  intros Hg. cbv zeta. unfold PostprocessCardValidateResult.
  pose proof (PostprocessCard_loop_cursor _ Hg 0 result ltac:(lia)) as H.
  cbv zeta in H. destruct H as (H1 & H2 & H3).
  repeat split; lia.
Qed.

Lemma X8_card_cursor_movement_witness :
  position (PostprocessCardValidateResult (fun _ => [4; 6; 5])
              {| value := qs "378282246310005"; position := 15 |})
  = size (value (PostprocessCardValidateResult (fun _ => [4; 6; 5])
                   {| value := qs "378282246310005"; position := 15 |})).
Proof.
  assert (Hg : validGroups [4; 6; 5]) by (repeat constructor; lia).
  exact (proj2 (proj2 (X8_card_cursor_movement (fun _ => [4; 6; 5])
                         {| value := qs "378282246310005"; position := 15 |} Hg))
           eq_refl).
Defined.

(** X9: for every request, the card number validator returns a cursor
    within the value it returns. *)
Theorem X9_card_validator_cursor_in_bounds
    (ValidateCard : QString -> Stripe.ValidationResult)
    (CardNumberFormat : QString -> list Z)
    (request : FieldValidateRequest) :
  (forall v, validGroups (CardNumberFormat v)) ->
  0 <= result_position (CardNumberValidator ValidateCard CardNumberFormat request)
    <= size (result_value
               (CardNumberValidator ValidateCard CardNumberFormat request)).
Proof.
  intros Hg. apply (CardNumberValidator_bounds ValidateCard CardNumberFormat request Hg).
Qed.

Lemma X9_card_validator_cursor_in_bounds_witness :
  0 <= result_position
         (CardNumberValidator (fun _ => alwaysIncomplete) (fun _ => [4; 4; 4; 4; 4])
            {| wasValue := qs "4242"; wasPosition := 4; wasAnchor := 4;
               nowValue := qs "42424"; nowPosition := 5 |})
    <= 6.
Proof.
  apply (X9_card_validator_cursor_in_bounds
           (fun _ => alwaysIncomplete) (fun _ => [4; 4; 4; 4; 4])
           {| wasValue := qs "4242"; wasPosition := 4; wasAnchor := 4;
              nowValue := qs "42424"; nowPosition := 5 |}).
  intros v. repeat constructor; lia.
Defined.

(** X10: the card number validator is stable: when its result is applied
    to the field and the validator runs again on that change, it returns
    the same value, cursor and flags. *)
Theorem X10_card_validator_stable
    (ValidateCard : QString -> Stripe.ValidationResult)
    (CardNumberFormat : QString -> list Z)
    (request again : FieldValidateRequest) :
  (forall v, validGroups (CardNumberFormat v)) ->
  let result := CardNumberValidator ValidateCard CardNumberFormat request in
  appliesState {| value := result_value result;
                  position := result_position result |} again ->
  CardNumberValidator ValidateCard CardNumberFormat again = result.
Proof.
  intros Hg result (Hv & Hp & Hb & Hd).
  cbn [value position] in Hv, Hp.
  destruct (realNowState_bounds request) as [Hnum Hbnd].
  assert (Hreal : realNowState again = realNowState request).
  { unfold realNowState at 1. rewrite Hb, Hd. cbn [negb andb].
    rewrite Hv, Hp. subst result.
    unfold CardNumberValidator, ComplexNumberValidator.
    cbn [result_value result_position].
    rewrite <- (PostprocessCard_strip CardNumberFormat (realNowState request))
      at 3 by auto.
    destruct (PostprocessCardValidateResult _ _); reflexivity. }
  subst result. unfold CardNumberValidator, ComplexNumberValidator.
  rewrite Hreal. reflexivity.
Qed.

Lemma X10_card_validator_stable_witness :
  CardNumberValidator (fun _ => alwaysIncomplete) (fun _ => [4; 4; 4; 4; 4])
    {| wasValue := qs "42424"; wasPosition := 5; wasAnchor := 5;
       nowValue := qs "4242 4"; nowPosition := 6 |}
  = CardNumberValidator (fun _ => alwaysIncomplete) (fun _ => [4; 4; 4; 4; 4])
      {| wasValue := qs "4242"; wasPosition := 4; wasAnchor := 4;
         nowValue := qs "42424"; nowPosition := 5 |}.
Proof.
  apply (X10_card_validator_stable
           (fun _ => alwaysIncomplete) (fun _ => [4; 4; 4; 4; 4])).
  - intros v. repeat constructor; lia.
  - repeat split.
Defined.

(** X11: the card number validator shows exactly the digits it judged:
    the returned value without its separators is the string handed to
    [ValidateCard], whose verdict the flags report. *)
Theorem X11_card_validator_judges_displayed_digits
    (ValidateCard : QString -> Stripe.ValidationResult)
    (CardNumberFormat : QString -> list Z)
    (request : FieldValidateRequest) :
  let result := CardNumberValidator ValidateCard CardNumberFormat request in
  let judged := ValidateCard (RemoveNonNumbers (result_value result)) in
  RemoveNonNumbers (result_value result) = value (realNowState request)
  /\ invalid result
     = Stripe.ValidationState_eqb (Stripe.state judged) Stripe.Invalid
  /\ result_finished result = Stripe.finished judged.
Proof.
  cbv zeta.
  assert (H : RemoveNonNumbers
                (result_value
                   (CardNumberValidator ValidateCard CardNumberFormat request))
              = value (realNowState request)).
  { unfold CardNumberValidator, ComplexNumberValidator, PostprocessCardValidateResult.
    cbn [result_value]. rewrite PostprocessCard_loop_digits.
    apply RemoveNonNumbers_fixed, realNowState_bounds. }
  rewrite H. repeat split.
Qed.

(** ** The expiry date postprocessor and validator *)

(** X12: whatever it is given, the expiry date postprocessor returns at
    most five characters ("MM/YY"); it never moves the cursor back and
    moves it forward by at most two (the prepended zero and the
    separator). *)
Theorem X12_expiry_length_and_cursor (result : SimpleFieldState) :
  let out := PostprocessExpireDateValidateResult result in
  size (value out) <= 5
  /\ position result <= position out <= position result + 2.
Proof.
  cbv zeta. rewrite PostprocessExpireDate_normal.
  destruct (invalidMonth (value result)).
  - cbn [value position]. rewrite size_firstn. lia.
  - cbv zeta.
    assert (Hgen : forall (r1 : SimpleFieldState) (p : Z),
               p <= position r1 <= p + 1 ->
               let out := if 1 <? size (value r1)
                          then {| value := insert (firstn 4 (value r1)) 2 (chr "/");
                                  position := if 2 <=? position r1
                                              then position r1 + 1
                                              else position r1 |}
                          else r1 in
               size (value out) <= 5 /\ p <= position out <= p + 2).
    { intros r1 p Hp. destruct (Z.ltb_spec 1 (size (value r1))); cbn [value position].
      - rewrite size_insert_inside by (rewrite size_firstn; lia).
        rewrite size_firstn. destruct (2 <=? position r1); lia.
      - lia. }
    destruct (singleDigitMonth (value result)).
    + apply (Hgen {| value := chr "0" :: value result;
                     position := position result + 1 |}).
      cbn [position]. lia.
    + apply Hgen. lia.
Qed.

Lemma isNumber_range (c : QChar) :
  isNumber c = true -> 48 <= Z.of_N c <= 57.
Proof.
  unfold isNumber. rewrite andb_true_iff, !N.leb_le. lia.
Qed.

Lemma allNumbers_cons (c : QChar) (v : QString) :
  allNumbers (c :: v) = true <-> isNumber c = true /\ allNumbers v = true.
Proof. unfold allNumbers. cbn [forallb]. apply andb_true_iff. Qed.

(** The three shapes of what the postprocessor returns for a stripped
    value. *)
Lemma PostprocessExpireDate_shape (result : SimpleFieldState) :
  allNumbers (value result) = true ->
  let out := value (PostprocessExpireDateValidateResult result) in
  (exists b, out = [chr "1"; b] /\ isNumber b = true
             /\ QChar_gtb b (chr "2") = true
             /\ invalidMonth (value result) = true)
  \/ (out = value result /\ size out <= 1
      /\ invalidMonth (value result) = false)
  \/ (exists m1 m2 yy,
        out = m1 :: m2 :: chr "/" :: yy
        /\ m1 :: m2 :: yy = expireDigits (value result)
        /\ allNumbers [m1; m2] = true /\ allNumbers yy = true
        /\ size yy <= 2 /\ 0 <= decimalValue [m1; m2] <= 12
        /\ invalidMonth (value result) = false).
Proof.
  intros Hv. cbv zeta. rewrite PostprocessExpireDate_normal. unfold expireDigits.
  destruct (invalidMonth (value result)) eqn:Einv.
  - left. destruct (invalidMonth_inv _ Einv) as (b & rest & Hval & Hb).
    exists b. cbn [value]. rewrite Hval in *. cbn [firstn].
    apply allNumbers_cons in Hv. destruct Hv as [_ Hv].
    apply allNumbers_cons in Hv. tauto.
  - right. cbv zeta.
    assert (Hgen : forall r1 : SimpleFieldState,
               allNumbers (value r1) = true ->
               invalidMonth (value r1) = false ->
               singleDigitMonth (value r1) = false ->
               let out := value (if 1 <? size (value r1)
                          then {| value := insert (firstn 4 (value r1)) 2 (chr "/");
                                  position := if 2 <=? position r1
                                              then position r1 + 1
                                              else position r1 |}
                          else r1) in
               (out = value r1 /\ size out <= 1)
               \/ (exists m1 m2 yy,
                     out = m1 :: m2 :: chr "/" :: yy
                     /\ m1 :: m2 :: yy = firstn 4 (value r1)
                     /\ allNumbers [m1; m2] = true /\ allNumbers yy = true
                     /\ size yy <= 2 /\ 0 <= decimalValue [m1; m2] <= 12)).
    { intros [v1 p1]; cbn [value position]. intros H1 Hi1 Hs1.
      destruct (Z.ltb_spec 1 (size v1)) as [Hlong|Hshort]; cbn [value].
      - right. destruct v1 as [|x [|y rest]];
          [cbn in Hlong; lia | cbn in Hlong; lia |].
        change (firstn 4 (x :: y :: rest)) with (x :: y :: firstn 2 rest).
        exists x, y, (firstn 2 rest).
        rewrite insert_inside
          by (rewrite !size_cons;
              pose proof (size_nonneg (firstn 2 rest)); lia).
        apply allNumbers_cons in H1. destruct H1 as [Hx H1].
        apply allNumbers_cons in H1. destruct H1 as [Hy H1].
        split; [reflexivity|]. split; [reflexivity|].
        split; [unfold allNumbers; cbn; rewrite Hx, Hy; reflexivity|].
        split; [apply allNumbers_firstn, H1|].
        split; [rewrite size_firstn; lia|].
        apply isNumber_range in Hx, Hy.
        unfold singleDigitMonth in Hs1. rewrite at_0_cons in Hs1.
        unfold invalidMonth in Hi1. rewrite at_0_cons, at_1_cons in Hi1.
        unfold QChar_gtb, QChar_eqb, chr in *. cbn in Hs1, Hi1.
        apply N.ltb_ge in Hs1.
        unfold decimalValue. cbn [fold_left].
        destruct (N.eqb_spec x 49) as [Ex|Ex]; cbn [andb] in Hi1.
        + apply N.ltb_ge in Hi1. lia.
        + lia.
      - left. split; [reflexivity | lia]. }
    destruct (singleDigitMonth (value result)) eqn:Esgl.
    + destruct (Hgen {| value := chr "0" :: value result;
                        position := position result + 1 |}) as [[_ H]|H];
        cbn [value position] in *.
      * apply allNumbers_cons. split; [reflexivity | exact Hv].
      * unfold invalidMonth. rewrite at_0_cons. reflexivity.
      * unfold singleDigitMonth. rewrite at_0_cons. reflexivity.
      * exfalso. destruct (value result) as [|a rest]; [discriminate Esgl|].
        rewrite !size_cons in H.
        destruct (Z.ltb_spec 1 (1 + (1 + size rest))) as [Hl|Hl].
        -- cbn [value] in H.
           rewrite size_insert_inside in H;
             rewrite size_firstn, !size_cons in *;
             pose proof (size_nonneg rest); lia.
        -- pose proof (size_nonneg rest). lia.
      * right. destruct H as (m1 & m2 & yy & H). exists m1, m2, yy. tauto.
    + destruct result as [v p]. cbn [value position] in *.
      destruct (Hgen {| value := v; position := p |} Hv Einv Esgl) as [H|H];
        cbn [value position] in H.
      * left. tauto.
      * right. destruct H as (m1 & m2 & yy & H). exists m1, m2, yy. tauto.
Qed.

(** X13: for a stripped value the expiry date postprocessor returns
    either the value itself when it has at most one digit, or the two
    digits "1x" of a month above 12 without separator, or two month digits
    denoting at most 12, the separator at index 2 and at most two year
    digits. *)
Theorem X13_expiry_result_shape (result : SimpleFieldState) :
  allNumbers (value result) = true ->
  let out := value (PostprocessExpireDateValidateResult result) in
  (exists b, out = [chr "1"; b] /\ isNumber b = true
             /\ QChar_gtb b (chr "2") = true)
  \/ (out = value result /\ size out <= 1)
  \/ (exists m1 m2 yy,
        out = m1 :: m2 :: chr "/" :: yy
        /\ allNumbers [m1; m2] = true /\ allNumbers yy = true
        /\ size yy <= 2 /\ 0 <= decimalValue [m1; m2] <= 12).
Proof.
  intros Hv. cbv zeta.
  destruct (PostprocessExpireDate_shape result Hv)
    as [(b & H)|[H|(m1 & m2 & yy & H)]].
  - left. exists b. tauto.
  - right. left. tauto.
  - right. right. exists m1, m2, yy. tauto.
Qed.

Lemma X13_expiry_result_shape_witness :
  let out := value (PostprocessExpireDateValidateResult
                      {| value := qs "1225"; position := 4 |}) in
  (exists b, out = [chr "1"; b] /\ isNumber b = true
             /\ QChar_gtb b (chr "2") = true)
  \/ (out = qs "1225" /\ size out <= 1)
  \/ (exists m1 m2 yy,
        out = m1 :: m2 :: chr "/" :: yy
        /\ allNumbers [m1; m2] = true /\ allNumbers yy = true
        /\ size yy <= 2 /\ 0 <= decimalValue [m1; m2] <= 12).
Proof.
  exact (X13_expiry_result_shape {| value := qs "1225"; position := 4 |} eq_refl).
Defined.

(** X14: when nothing is cut off the reconstructed value (at most four
    digits, three if the month gets its zero, two for a month above 12),
    the expiry date validator returns a cursor within the value it
    returns. *)
Theorem X14_expiry_validator_cursor_in_bounds
    (ValidateExpireDate : QString -> Stripe.ValidationResult)
    (request : FieldValidateRequest) :
  let real := realNowState request in
  size (value real) <= (if invalidMonth (value real) then 2
                        else if singleDigitMonth (value real) then 3 else 4) ->
  let result := ExpireDateValidator ValidateExpireDate request in
  0 <= result_position result <= size (result_value result).
Proof.
  cbv zeta. intros Hlen.
  destruct (realNowState_bounds request) as [_ Hb].
  unfold ExpireDateValidator, ComplexNumberValidator.
  cbn [result_value result_position].
  destruct (invalidMonth (value (realNowState request))) eqn:Einv.
  - rewrite PostprocessExpireDate_normal, Einv. cbn [value position].
    rewrite size_firstn. lia.
  - apply PostprocessExpireDate_bounds; assumption.
Qed.

Lemma X14_expiry_validator_cursor_in_bounds_witness :
  0 <= result_position
         (ExpireDateValidator (fun _ => alwaysIncomplete)
            {| wasValue := qs "12/3"; wasPosition := 4; wasAnchor := 4;
               nowValue := qs "12/34"; nowPosition := 5 |})
    <= 5.
Proof.
  apply (X14_expiry_validator_cursor_in_bounds (fun _ => alwaysIncomplete)
           {| wasValue := qs "12/3"; wasPosition := 4; wasAnchor := 4;
              nowValue := qs "12/34"; nowPosition := 5 |}).
  vm_compute. discriminate.
Defined.



(** ** Month and year extraction *)

Lemma split_without_separator (sep : QChar) (w : QString) :
  ~ In sep w -> split sep w = [w].
Proof.
  induction w as [|c w IH]; intros Hin; cbn [split]; [reflexivity|].
  unfold QChar_eqb. destruct (N.eqb_spec c sep) as [E|E].
  - exfalso. apply Hin. left. exact E.
  - rewrite IH; [reflexivity|]. intros H. apply Hin. right. exact H.
Qed.

Lemma split_at_separator (sep : QChar) (a b : QString) :
  ~ In sep a -> split sep (a ++ sep :: b) = a :: split sep b.
Proof.
  induction a as [|c a IH]; intros Hin; cbn [split app].
  - unfold QChar_eqb. rewrite N.eqb_refl. reflexivity.
  - unfold QChar_eqb. destruct (N.eqb_spec c sep) as [E|E].
    + exfalso. apply Hin. left. exact E.
    + rewrite IH; [reflexivity|]. intros H. apply Hin. right. exact H.
Qed.

Lemma value_at_0 (a : QString) (l : list QString) : value_at (a :: l) 0 = a.
Proof.
  unfold value_at. cbn [List.length].
  destruct (Z.ltb_spec 0 (Z.of_nat (S (List.length l)))); [reflexivity | lia].
Qed.

Lemma value_at_1 (a b : QString) (l : list QString) :
  value_at (a :: b :: l) 1 = b.
Proof.
  unfold value_at. cbn [List.length].
  destruct (Z.ltb_spec 1 (Z.of_nat (S (S (List.length l))))); [reflexivity | lia].
Qed.

Lemma allNumbers_no_slash (w : QString) :
  allNumbers w = true -> ~ In (chr "/") w.
Proof.
  unfold allNumbers. rewrite forallb_forall. intros H Hin.
  apply H in Hin. discriminate Hin.
Qed.

Lemma toInt_short (toInt : QString -> Z) (w : QString) :
  ToIntLaws toInt -> allNumbers w = true -> size w <= 9 ->
  toInt w = decimalValue w.
Proof.
  intros [He Hd] Hw Hs. destruct w as [|c w]; [exact He|].
  apply Hd; [discriminate | exact Hw | exact Hs].
Qed.

Lemma decimalValue_two_digits (w : QString) :
  allNumbers w = true -> size w <= 2 -> 0 <= decimalValue w <= 99.
Proof.
  intros Hw Hs. destruct w as [|a [|b [|c w]]]; unfold decimalValue; cbn [fold_left].
  - lia.
  - apply allNumbers_cons in Hw. destruct Hw as [Ha _].
    apply isNumber_range in Ha. lia.
  - apply allNumbers_cons in Hw. destruct Hw as [Ha Hw].
    apply allNumbers_cons in Hw. destruct Hw as [Hb _].
    apply isNumber_range in Ha, Hb. lia.
  - rewrite !size_cons in Hs. pose proof (size_nonneg w). lia.
Qed.

Lemma to_uint32_small (x : Z) : 0 <= x < 2 ^ 32 -> to_uint32 x = x.
Proof. intros H. unfold to_uint32. apply Z.mod_small, H. Qed.

Lemma toIntPlain_laws : ToIntLaws toIntPlain.
Proof.
  split; [reflexivity|].
  intros v _ Hv _. unfold toIntPlain. rewrite Hv. reflexivity.
Qed.

Lemma Extract_without_separator (toInt : QString -> Z) (value : QString) :
  ToIntLaws toInt ->
  ~ In (chr "/") value ->
  ExtractYear toInt value = 2000
  /\ ExtractMonth toInt value = to_uint32 (toInt value).
Proof.
  intros Hlaws Hin. unfold ExtractYear, ExtractMonth.
  rewrite split_without_separator by exact Hin.
  cbn. rewrite (toInt_empty _ Hlaws). split; reflexivity.
Qed.

(** X16: a value without '/' has year 2000 and the whole string as its
    month: the missing second segment reads as the empty string, which
    [toInt] turns into 0.  In particular the empty field gives month 0
    and year 2000. *)
Theorem X16_extract_without_separator
    (toInt : QString -> Z) (value : QString) :
  ToIntLaws toInt ->
  ~ In (chr "/") value ->
  ExtractYear toInt value = 2000
  /\ ExtractMonth toInt value = to_uint32 (toInt value).
Proof. apply Extract_without_separator. Qed.

Lemma X16_extract_without_separator_witness :
  ExtractYear toIntPlain (qs "") = 2000
  /\ ExtractMonth toIntPlain (qs "") = to_uint32 (toIntPlain (qs "")).
Proof.
  apply (X16_extract_without_separator toIntPlain (qs "") toIntPlain_laws).
  intros H. exact H.
Defined.

(** X17: month and year are read back from what the expiry date
    postprocessor displays: for a stripped value that keeps at least
    two digits of a valid month, the extracted month is the number
    written by the first two kept digits and the extracted year is 2000
    plus the number written by the remaining ones. *)
Theorem X17_extract_round_trip
    (toInt : QString -> Z) (result : SimpleFieldState) :
  ToIntLaws toInt ->
  allNumbers (value result) = true ->
  invalidMonth (value result) = false ->
  2 <= size (expireDigits (value result)) ->
  let out := value (PostprocessExpireDateValidateResult result) in
  ExtractMonth toInt out
  = decimalValue (firstn 2 (expireDigits (value result)))
  /\ ExtractYear toInt out
     = 2000 + decimalValue (skipn 2 (expireDigits (value result))).
Proof.
  intros Hlaws Hv Hinv Hlen. cbv zeta.
  pose proof (PostprocessExpireDate_digits result Hv) as Hdig.
  destruct (PostprocessExpireDate_shape result Hv)
    as [(b & _ & _ & _ & H)|[(Hout & Hs & _)|(m1 & m2 & yy & Hout & Hkept & Hmm & Hyy & Hsy & Hm & _)]].
  - congruence.
  - rewrite Hout in Hdig at 1.
    rewrite RemoveNonNumbers_fixed in Hdig by exact Hv.
    rewrite <- Hdig, <- Hout in Hlen. lia.
  - rewrite Hout, <- Hkept. cbn [firstn skipn].
    unfold ExtractMonth, ExtractYear.
    change (m1 :: m2 :: chr "/" :: yy) with ([m1; m2] ++ chr "/" :: yy).
    rewrite split_at_separator by (apply allNumbers_no_slash, Hmm).
    rewrite split_without_separator by (apply allNumbers_no_slash, Hyy).
    rewrite value_at_0, value_at_1.
    rewrite (toInt_short toInt [m1; m2]) by (auto; cbn; lia).
    rewrite (toInt_short toInt yy) by (auto; lia).
    pose proof (decimalValue_two_digits yy Hyy Hsy).
    rewrite !to_uint32_small by lia. split; [reflexivity | apply Z.add_comm].
Qed.

Lemma X17_extract_round_trip_witness :
  ExtractMonth toIntPlain
    (value (PostprocessExpireDateValidateResult
              {| value := qs "1225"; position := 4 |})) = 12
  /\ ExtractYear toIntPlain
       (value (PostprocessExpireDateValidateResult
                 {| value := qs "1225"; position := 4 |})) = 2025.
Proof.
  apply (X17_extract_round_trip toIntPlain
           {| value := qs "1225"; position := 4 |} toIntPlain_laws).
  - reflexivity.
  - reflexivity.
  - vm_compute. discriminate.
Defined.

(** X18: whatever the request, the value the expiry date validator
    returns yields a month of at most 19 and a year from 2000 to 2099;
    once the value holds the separator the month is at most 12. *)
Theorem X18_extract_ranges
    (toInt : QString -> Z)
    (ValidateExpireDate : QString -> Stripe.ValidationResult)
    (request : FieldValidateRequest) :
  ToIntLaws toInt ->
  let shown := result_value (ExpireDateValidator ValidateExpireDate request) in
  0 <= ExtractMonth toInt shown <= 19
  /\ 2000 <= ExtractYear toInt shown <= 2099
  /\ (In (chr "/") shown -> ExtractMonth toInt shown <= 12).
Proof.
  intros Hlaws. cbv zeta.
  unfold ExpireDateValidator, ComplexNumberValidator. cbn [result_value].
  destruct (realNowState_bounds request) as [Hv _].
  destruct (PostprocessExpireDate_shape (realNowState request) Hv)
    as [(b & Hout & Hb & Hgt & _)
       |[(Hout & Hs & _)
        |(m1 & m2 & yy & Hout & _ & Hmm & Hyy & Hsy & Hm & _)]].
  - (* "1x", a month above 12, no separator *)
    rewrite Hout.
    assert (Hnum : allNumbers [chr "1"; b] = true)
      by (unfold allNumbers; cbn; rewrite Hb; reflexivity).
    pose proof (allNumbers_no_slash _ Hnum) as Hno.
    destruct (Extract_without_separator toInt _ Hlaws Hno) as [Hy Hmth].
    rewrite Hy, Hmth, (toInt_short toInt _ Hlaws Hnum) by (cbn; lia).
    apply isNumber_range in Hb.
    unfold decimalValue. cbn [fold_left].
    change (Z.of_N (chr "1")) with 49.
    rewrite to_uint32_small by lia. repeat split; try lia; tauto.
  - (* at most one digit *)
    rewrite Hout in *.
    pose proof (allNumbers_no_slash _ Hv) as Hno.
    destruct (Extract_without_separator toInt _ Hlaws Hno) as [Hy Hmth].
    rewrite Hy, Hmth, (toInt_short toInt _ Hlaws Hv) by lia.
    assert (Hd : 0 <= decimalValue (value (realNowState request)) <= 9).
    { destruct (value (realNowState request)) as [|a [|b w]].
      - cbn. lia.
      - apply allNumbers_cons in Hv. destruct Hv as [Ha _].
        apply isNumber_range in Ha. unfold decimalValue. cbn [fold_left]. lia.
      - rewrite !size_cons in Hs. pose proof (size_nonneg w). lia. }
    rewrite to_uint32_small by lia. repeat split; try lia; tauto.
  - (* month, separator, year *)
    rewrite Hout. unfold ExtractMonth, ExtractYear.
    change (m1 :: m2 :: chr "/" :: yy) with ([m1; m2] ++ chr "/" :: yy).
    rewrite split_at_separator by (apply allNumbers_no_slash, Hmm).
    rewrite split_without_separator by (apply allNumbers_no_slash, Hyy).
    rewrite value_at_0, value_at_1.
    rewrite (toInt_short toInt [m1; m2]) by (auto; cbn; lia).
    rewrite (toInt_short toInt yy) by (auto; lia).
    pose proof (decimalValue_two_digits yy Hyy Hsy).
    rewrite !to_uint32_small by lia. repeat split; lia.
Qed.

Lemma X18_extract_ranges_witness :
  ExtractMonth toIntPlain
    (result_value
       (ExpireDateValidator (fun _ => alwaysIncomplete)
          {| wasValue := qs "12/3"; wasPosition := 4; wasAnchor := 4;
             nowValue := qs "12/34"; nowPosition := 5 |})) <= 19.
Proof.
  apply (X18_extract_ranges toIntPlain (fun _ => alwaysIncomplete)
           {| wasValue := qs "12/3"; wasPosition := 4; wasAnchor := 4;
              nowValue := qs "12/34"; nowPosition := 5 |} toIntPlain_laws).
Defined.

(** ** The CVC validator *)

(** X19: for every request the CVC validator returns digits only, with the
    cursor within them; and it is stable: run again on a change that sets
    the field to its result, it returns the same result. *)
Theorem X19_cvc_validator_wellformed_and_stable
    (ValidateCvc : QString -> QString -> Stripe.ValidationResult)
    (number : QString) (request again : FieldValidateRequest) :
  let result := CvcValidator ValidateCvc number request in
  allNumbers (result_value result) = true
  /\ 0 <= result_position result <= size (result_value result)
  /\ (nowValue again = result_value result ->
      nowPosition again = result_position result ->
      CvcValidator ValidateCvc number again = result).
Proof.
  cbv zeta. split; [apply RemoveNonNumbers_allNumbers|].
  split; [apply (CvcValidator_bounds ValidateCvc number request)|].
  unfold CvcValidator. cbn [result_value result_position].
  intros Hv Hp. rewrite Hv, Hp.
  set (now := NumbersOnlyState {| value := nowValue request;
                                  position := nowPosition request |}).
  replace (NumbersOnlyState {| value := value now; position := position now |})
    with now; [reflexivity|].
  subst now. rewrite <- (NumbersOnlyState_twice _) at 1.
  destruct (NumbersOnlyState _); reflexivity.
Qed.

(** ** Character reads of the expiry date postprocessor, in full *)

(** X20: the expiry date postprocessor reads within the bounds of the
    value in every case but one: a value of exactly one character that is
    '1', where it reads index 1. *)
Theorem X20_expiry_reads_in_bounds (result : SimpleFieldState) :
  forallb inBounds (snd (PostprocessExpireDate_reads result))
  = negb ((size (value result) =? 1)
          && QChar_eqb (at_ (value result) 0) (chr "1")).
Proof.
  destruct result as [v p]. unfold PostprocessExpireDate_reads, readAt.
  cbn [value position].
  destruct v as [|a [|b rest]].
  - reflexivity.
  - change (isEmpty [a]) with false. cbv iota.
    change (at_ [a] 0) with a. change (size [a]) with 1.
    destruct (QChar_eqb a (chr "1")).
    + destruct (QChar_gtb (at_ [a] 1) (chr "2")); reflexivity.
    + destruct (QChar_gtb a (chr "1")); reflexivity.
  - rewrite isEmpty_cons, at_0_cons, at_1_cons.
    set (n := size (a :: b :: rest)).
    assert (Hn : 2 <= n)
      by (subst n; rewrite !size_cons; pose proof (size_nonneg rest); lia).
    assert (H0 : inBounds {| read_index := 0; read_size := n |} = true).
    { unfold inBounds. cbn [read_index read_size].
      destruct (Z.ltb_spec 0 n); [reflexivity | lia]. }
    assert (H1 : inBounds {| read_index := 1; read_size := n |} = true).
    { unfold inBounds. cbn [read_index read_size].
      destruct (Z.ltb_spec 1 n); [reflexivity | lia]. }
    replace (n =? 1) with false by (symmetry; apply Z.eqb_neq; lia).
    cbn [andb negb].
    destruct (QChar_eqb a (chr "1")).
    + destruct (QChar_gtb b (chr "2")); cbn [snd app forallb];
        rewrite ?H0, ?H1; reflexivity.
    + cbn [snd app forallb]. rewrite ?H0, ?H1. reflexivity.
Qed.

(** ** Where the card number cursor lands *)

Lemma boundaries_lower (groups : list Z) :
  validGroups groups ->
  forall c b, In b (boundaries c groups) -> c <= b.
Proof.
  induction 1 as [|g rest Hg _ IH]; intros c b; cbn [boundaries In].
  - tauto.
  - intros [E|Hin]; [lia|]. specialize (IH _ _ Hin). lia.
Qed.

Lemma filter_none {A : Type} (f : A -> bool) (l : list A) :
  (forall x, In x l -> f x = false) -> filter f l = [].
Proof.
  induction l as [|x l IH]; intros H; cbn [filter]; [reflexivity|].
  rewrite (H x) by (left; reflexivity).
  apply IH. intros y Hy. apply H. right. exact Hy.
Qed.

(** The loop, entered after [k] separators went in, [k'] of them at or
    before the cursor [p] of the stripped value of [n] digits. *)
Lemma PostprocessCard_loop_closed_form (groups : list Z) (n p : Z) :
  validGroups groups ->
  forall c k k' result,
    0 <= c -> 0 <= k ->
    size (value result) = n + k ->
    position result = p + k' ->
    k' <= k -> (k' = k \/ p < c) ->
    let inserted := filter (fun b => b <? n) (boundaries c groups) in
    let out := PostprocessCard_loop groups (c + k) result in
    size (value out) = n + k + Z.of_nat (List.length inserted)
    /\ position out
       = p + k' + Z.of_nat (List.length (filter (fun b => b <=? p) inserted)).
Proof.
  induction 1 as [|g rest Hg Hrest IH];
    intros c k k' r Hc Hk Hsize Hpos Hle Hinv;
    cbn [PostprocessCard_loop boundaries].
  - cbv zeta. cbn. lia.
  - cbv zeta. rewrite Hsize, Hpos.
    replace (c + k + g) with (c + g + k) by lia.
    destruct (Z.leb_spec (n + k) (c + g + k)) as [Hstop|Hgo].
    + rewrite filter_none.
      * cbn. lia.
      * intros b [E|Hin]; apply Z.ltb_ge.
        -- lia.
        -- pose proof (boundaries_lower rest Hrest _ _ Hin). lia.
    + cbn [filter].
      destruct (Z.ltb_spec (c + g) n) as [_|]; [|lia].
      cbn [filter List.length].
      set (r' := {| value := insert (value r) (c + g + k) (chr " ");
                    position := if c + g + k <=? p + k'
                                then p + k' + 1 else p + k' |}).
      assert (Hs' : size (value r') = n + (k + 1)).
      { subst r'. cbn [value]. rewrite size_insert_inside by lia. lia. }
      destruct (Z.leb_spec (c + g + k) (p + k')) as [Hin|Hout].
      * assert (k' = k) by lia. subst k'.
        destruct (Z.leb_spec (c + g) p) as [_|]; [|lia].
        specialize (IH (c + g) (k + 1) (k + 1) r'
                      ltac:(lia) ltac:(lia) Hs' ltac:(subst r'; cbn; lia)
                      ltac:(lia) ltac:(lia)).
        cbv zeta in IH.
        replace (c + g + (k + 1)) with (c + g + k + 1) in IH by lia.
        cbn [List.length]. lia.
      * destruct (Z.leb_spec (c + g) p) as [|_]; [lia|].
        specialize (IH (c + g) (k + 1) k' r'
                      ltac:(lia) ltac:(lia) Hs' ltac:(subst r'; cbn; lia)
                      ltac:(lia) ltac:(lia)).
        cbv zeta in IH.
        replace (c + g + (k + 1)) with (c + g + k + 1) in IH by lia.
        lia.
Qed.

(** X21: where the card number postprocessor puts the cursor.  One space
    goes in at each group boundary that lies before the end of the value,
    and the cursor moves forward by the number of those boundaries at or
    before it, whatever the cursor is. *)
Theorem X21_card_cursor_rule
    (CardNumberFormat : QString -> list Z) (result : SimpleFieldState) :
  validGroups (CardNumberFormat (value result)) ->
  let inserted :=
    filter (fun b => b <? size (value result))
           (boundaries 0 (CardNumberFormat (value result))) in
  let out := PostprocessCardValidateResult CardNumberFormat result in
  size (value out) = size (value result) + Z.of_nat (List.length inserted)
  /\ position out
     = position result
       + Z.of_nat (List.length
                     (filter (fun b => b <=? position result) inserted)).
Proof.
  intros Hg. cbv zeta. unfold PostprocessCardValidateResult.
  pose proof (PostprocessCard_loop_closed_form
                (CardNumberFormat (value result))
                (size (value result)) (position result) Hg
                0 0 0 result) as H.
  cbv zeta in H. replace (0 + 0) with 0 in H by lia.
  specialize (H ltac:(lia) ltac:(lia) ltac:(lia) ltac:(lia) ltac:(lia)
                ltac:(lia)).
  lia.
Qed.

Lemma X21_card_cursor_rule_witness :
  position (PostprocessCardValidateResult (fun _ => [4; 6; 5])
              {| value := qs "378282246310005"; position := 10 |})
  = 10 + 2.
Proof.
  assert (Hg : validGroups [4; 6; 5]) by (repeat constructor; lia).
  exact (proj2 (X21_card_cursor_rule (fun _ => [4; 6; 5])
                  {| value := qs "378282246310005"; position := 10 |} Hg)).
Defined.

(** ** The keystrokes the detection is written for *)

(** X22: the edits the keys really make are recognised.  Removing the
    character before the cursor of a snapshot without selection and moving
    the cursor back by one is classified as a backspace; removing the
    character at the cursor and leaving the cursor is classified as a
    delete. *)
Theorem X22_keystrokes_recognised (text : QString) (cursor : Z) :
  (1 <= cursor <= size text ->
   IsBackspace {| wasValue := text; wasPosition := cursor; wasAnchor := cursor;
                  nowValue := removeAt (cursor - 1) text;
                  nowPosition := cursor - 1 |} = true)
  /\ (0 <= cursor < size text ->
      IsDelete {| wasValue := text; wasPosition := cursor; wasAnchor := cursor;
                  nowValue := removeAt cursor text;
                  nowPosition := cursor |} = true).
Proof.
  assert (Hpre : forall k, 0 <= k < size text ->
            firstn (Z.to_nat k) (removeAt k text) = firstn (Z.to_nat k) text).
  { intros k Hk. unfold removeAt. rewrite firstn_app, firstn_firstn.
    rewrite length_firstn. unfold size in Hk.
    replace (Z.to_nat k - Nat.min (Z.to_nat k) (List.length text))%nat
      with 0%nat by lia.
    cbn [firstn]. rewrite app_nil_r. f_equal. lia. }
  assert (Hsuf : forall k, 0 <= k < size text ->
            skipn (Z.to_nat k) (removeAt k text) = skipn (S (Z.to_nat k)) text).
  { intros k Hk. unfold removeAt. rewrite skipn_app.
    rewrite length_firstn. unfold size in Hk.
    rewrite skipn_all2 by (rewrite length_firstn; lia).
    replace (Z.to_nat k - Nat.min (Z.to_nat k) (List.length text))%nat
      with 0%nat by lia.
    reflexivity. }
  split; intros Hc.
  - apply IsBackspace_unfold.
    cbn [wasValue wasPosition wasAnchor nowValue nowPosition].
    split; [reflexivity|]. split; [lia|].
    rewrite !mid_prefix, !midFrom_suffix by lia.
    rewrite Hpre, Hsuf by lia.
    split; [reflexivity|]. f_equal. lia.
  - apply IsDelete_unfold.
    cbn [wasValue wasPosition wasAnchor nowValue nowPosition].
    split; [reflexivity|]. split; [reflexivity|].
    rewrite !mid_prefix, !midFrom_suffix by lia.
    rewrite Hpre, Hsuf by lia.
    split; [reflexivity|]. f_equal. lia.
Qed.

Lemma X22_keystrokes_recognised_witness :
  IsBackspace {| wasValue := qs "4242 4"; wasPosition := 5; wasAnchor := 5;
                 nowValue := qs "42424"; nowPosition := 4 |} = true
  /\ IsDelete {| wasValue := qs "4242 4"; wasPosition := 4; wasAnchor := 4;
                 nowValue := qs "42424"; nowPosition := 4 |} = true.
Proof.
  split.
  - apply (proj1 (X22_keystrokes_recognised (qs "4242 4") 5)).
    vm_compute. split; discriminate.
  - apply (proj2 (X22_keystrokes_recognised (qs "4242 4") 4)).
    vm_compute. split; [discriminate | reflexivity].
Defined.
